(** * process_temperature.py: WorldClim tmin/tmax rasters to GeoJSON features

    A shallow embedding of [src/data/process_temperature.py] and the
    properties its specification states about it.

    Conventions of the embedding.
    - numpy [float32] arrays are lists of rows of IEEE-754 binary32 values
      ([spec_float] with precision 24 and maximal exponent 128); Python
      floats are binary64 values (precision 53, maximal exponent 1024).
      There is one NaN, as the script never inspects payloads.
    - The file system is a finite map from path strings to files; a file is
      a readable raster, a file that exists but makes [rasterio.open] or
      [read] raise, or a GeoJSON document written by [GeoDataFrame.to_file].
      The map holds files only: directories are implicit, so [os.makedirs]
      leaves the map as it is, and raises where the call raises because of
      the path itself or of a file in the way.
    - Python exceptions are values of [exn]; [main] threads the file system
      and stops at the first exception nobody catches.
    - [print] calls are left out: they do not influence any value the
      script computes. *)

From Stdlib Require Import ZArith List Bool Ascii String Floats.SpecFloat Lia.
From stdpp Require Import base option list gmap strings.

Local Open Scope Z_scope.

(** ** Floating point *)

Module F32.
Definition prec : Z := 24.
Definition emax : Z := 128.

Definition add : spec_float -> spec_float -> spec_float := SFadd prec emax.
Definition sub : spec_float -> spec_float -> spec_float := SFsub prec emax.
Definition div : spec_float -> spec_float -> spec_float := SFdiv prec emax.
Definition eqb : spec_float -> spec_float -> bool := SFeqb.

Definition of_Z (n : Z) : spec_float := binary_normalize prec emax n 0 false.

Definition nan : spec_float := S754_nan.

Definition isnan (x : spec_float) : bool :=
  match x with S754_nan => true | _ => false end.

(** Largest finite binary32 value, [3.4028235e38]. *)
Definition max_float : spec_float := SFmax_float prec emax.
End F32.

Module F64.
Definition prec : Z := 53.
Definition emax : Z := 1024.

Definition of_Z (n : Z) : spec_float := binary_normalize prec emax n 0 false.

(** The Python literal with decimal digits [m] and [k] digits after the
    point: the binary64 value nearest to [m / 10^k]. *)
Definition dec (m : Z) (k : nat) : spec_float :=
  SFdiv prec emax (of_Z m) (of_Z (10 ^ Z.of_nat k)).

(** [float(x)] for a numpy [float32] scalar [x]: every binary32 value is a
    binary64 value, only the mantissa is re-aligned. *)
Definition of_f32 (x : spec_float) : spec_float :=
  match x with
  | S754_finite s m e => binary_round prec emax s m e
  | _ => x
  end.

Definition isnan (x : spec_float) : bool :=
  match x with S754_nan => true | _ => false end.

(** [math.isfinite] *)
Definition isfinite (x : spec_float) : bool :=
  match x with
  | S754_zero _ | S754_finite _ _ _ => true
  | S754_infinity _ | S754_nan => false
  end.
End F64.

Abbreviation float32 := spec_float (only parsing).
Abbreviation float64 := spec_float (only parsing).

(** ** Exceptions *)

Inductive exn : Type :=
| RasterioIOError     (* rasterio.errors.RasterioIOError *)
| ValueError          (* numpy: operands could not be broadcast together *)
| OSError             (* the OSError of os.makedirs: FileNotFoundError,
                         FileExistsError or NotADirectoryError *)
| OtherException.     (* any other subclass of Exception *)

Inductive outcome (A : Type) : Type :=
| Returns (a : A)
| Raises (e : exn).
Arguments Returns {A} a.
Arguments Raises {A} e.

(** ** numpy arrays of rank 2 *)

Module Numpy.
(** Row-major; all rows of an array have the same length. *)
Abbreviation ndarray := (list (list spec_float)).
Abbreviation boolarray := (list (list bool)).

Definition shape {A} (a : list (list A)) : nat * nat :=
  (length a, length (hd [] a)).

Definition rectangular {A} (a : list (list A)) : Prop :=
  Forall (fun row => length row = snd (shape a)) a.

Definition cell {A} (a : list (list A)) (i j : nat) : option A :=
  a !! i ≫= (fun row => row !! j).

Definition map2d {A B} (f : A -> B) (a : list (list A)) : list (list B) :=
  map (map f) a.

(** Broadcasting of one axis: equal lengths, or one of them is 1. *)
Definition broadcast_dim (n m : nat) : option nat :=
  if Nat.eqb n m then Some n
  else if Nat.eqb n 1 then Some m
  else if Nat.eqb m 1 then Some n
  else None.

(** An axis of length 1 is repeated to the broadcast length. *)
Definition stretch {A} (n : nat) (l : list A) : list A :=
  match l with
  | [x] => repeat x n
  | _ => l
  end.

(** A binary ufunc on two arrays: [ValueError] when the shapes do not
    broadcast. *)
Definition ufunc2 (f : float32 -> float32 -> float32) (a b : ndarray)
  : outcome ndarray :=
  let '(ra, ca) := shape a in
  let '(rb, cb) := shape b in
  match broadcast_dim ra rb, broadcast_dim ca cb with
  | Some r, Some c =>
      Returns (zip_with (fun x y => zip_with f (stretch c x) (stretch c y))
                        (stretch r a) (stretch r b))
  | _, _ => Raises ValueError
  end.

Definition add : ndarray -> ndarray -> outcome ndarray := ufunc2 F32.add.
Definition subtract : ndarray -> ndarray -> outcome ndarray := ufunc2 F32.sub.

(** [a / s] for a Python float [s] that is exact in binary32. *)
Definition divide_scalar (a : ndarray) (s : float32) : ndarray :=
  map2d (fun x => F32.div x s) a.

(** [a[a == v] = np.nan] *)
Definition set_nan_where_eq (a : ndarray) (v : float32) : ndarray :=
  map2d (fun x => if F32.eqb x v then F32.nan else x) a.

(** [~np.isnan(a)] *)
Definition not_isnan (a : ndarray) : boolarray :=
  map2d (fun x => negb (F32.isnan x)) a.
End Numpy.
Import Numpy.

(** ** Rasters, geometries, features and files *)

(** The six coefficients of [affine.Affine]. *)
Inductive Affine : Type :=
| mkAffine (a b c d e f : float64).

(** [rasterio.crs.CRS], or [None] when the data set carries none. *)
Definition CRS : Type := option string.

Record raster : Type := {
  band1 : ndarray;             (* read(1).astype('float32') *)
  nodata : option float32;     (* src.nodata, at the precision of the array *)
  transform : Affine;          (* src.transform *)
  crs : CRS                    (* src.crs *)
}.

Inductive Geometry : Type :=
| PointBuffer (x y : Z) (distance : Z)
    (* shapely: Point(x, y).buffer(distance) *)
| PixelRegion (cells : list (nat * nat)) (t : Affine).
    (* the polygon around a set of pixels, mapped through [t] *)

Record Feature : Type := {
  change : float64;                (* properties['change'] *)
  geometry : option Geometry       (* None is a null geometry *)
}.

Record GeoDataFrame : Type := {
  features : list Feature;
  gdf_crs : CRS
}.

Inductive file : Type :=
| RasterFile (r : raster)
| Unreadable (e : exn)             (* exists, but open or read raises [e] *)
| GeoJSONFile (g : GeoDataFrame).  (* written by GeoDataFrame.to_file *)

Abbreviation FS := (gmap string file).

(** [os.path.exists] *)
Definition path_exists (fs : FS) (p : string) : bool :=
  match fs !! p with Some _ => true | None => false end.

(** [with rasterio.open(path, 'r') as src] followed by the reads of the
    band, the nodata value, the transform and the reference. *)
Definition rasterio_open (fs : FS) (p : string) : outcome raster :=
  match fs !! p with
  | Some (RasterFile r) => Returns r
  | Some (Unreadable e) => Raises e
  | Some (GeoJSONFile _) => Raises RasterioIOError
  | None => Raises RasterioIOError
  end.

(** ** load_avg_temp *)

Definition bind_outcome {A B} (m : outcome A) (k : A -> outcome B) : outcome B :=
  match m with
  | Returns a => k a
  | Raises e => Raises e
  end.

Notation "'do!' x := m 'in' k" := (bind_outcome m (fun x => k))
  (at level 10, x name, m at level 100, k at level 200, only parsing).

(** The body of the [try] block. *)
Definition load_avg_temp_try (fs : FS) (tmin_path tmax_path : string)
  : outcome (ndarray * Affine * CRS) :=
  do! tmin_src := rasterio_open fs tmin_path in
  do! tmax_src := rasterio_open fs tmax_path in
  let tmin := band1 tmin_src in
  let tmax := band1 tmax_src in
  let nodata := nodata tmin_src in
  let '(tmin, tmax) :=
    match nodata with
    | Some nd => (set_nan_where_eq tmin nd, set_nan_where_eq tmax nd)
    | None => (tmin, tmax)
    end in
  do! s := Numpy.add tmin tmax in
  let avg := divide_scalar (divide_scalar s (F32.of_Z 2)) (F32.of_Z 10) in
  Returns (avg, transform tmin_src, crs tmin_src).

(** Both [except] clauses return [(None, None, None)]. *)
Definition load_avg_temp (fs : FS) (tmin_path tmax_path : string)
  : option (ndarray * Affine * CRS) :=
  match load_avg_temp_try fs tmin_path tmax_path with
  | Returns r => Some r
  | Raises RasterioIOError => None
  | Raises _ => None
  end.

(** ** rasterio.features.shapes *)

Module Rasterio.
(** A connected region under construction: the value its pixels share and
    the pixels, in the order they were met. *)
Record region : Type := {
  r_value : float32;
  r_cells : list (nat * nat)
}.

(** Pixels sharing an edge (connectivity 4, the default). *)
Definition adjacent4 (p q : nat * nat) : bool :=
  let '(pi, pj) := p in
  let '(qi, qj) := q in
  (Nat.eqb pi qi && (Nat.eqb (S pj) qj || Nat.eqb pj (S qj)))
  || (Nat.eqb pj qj && (Nat.eqb (S pi) qi || Nat.eqb pi (S qi))).

Definition touches (c : nat * nat) (v : float32) (r : region) : bool :=
  F32.eqb v (r_value r) && existsb (adjacent4 c) (r_cells r).

(** Add one pixel: it joins the regions of equal value it touches, which
    thereby become one region, or starts a region of its own. *)
Fixpoint add_cell (c : nat * nat) (v : float32) (regions : list region)
  : list region :=
  match regions with
  | [] => [ {| r_value := v; r_cells := [c] |} ]
  | r :: rest =>
      if touches c v r then
        let hit := List.filter (touches c v) rest in
        let miss := List.filter (fun r' => negb (touches c v r')) rest in
        {| r_value := r_value r;
           r_cells := r_cells r ++ concat (map r_cells hit) ++ [c] |} :: miss
      else r :: add_cell c v rest
  end.

Definition mask_at (mask : boolarray) (i j : nat) : bool :=
  match cell mask i j with Some b => b | None => false end.

(** The pixels that take part, in raster-scan order, with their values. *)
Definition valid_cells (image : ndarray) (mask : boolarray)
  : list (nat * nat * float32) :=
  concat (imap (fun i row =>
            omap (fun x => x)
                 (imap (fun j v => if mask_at mask i j then Some (i, j, v) else None)
                       row))
          image).

Definition regions_of (cs : list (nat * nat * float32)) : list region :=
  fold_left (fun regions '(c, v) => add_cell c v regions) cs [].
End Rasterio.
Import Rasterio.

(** Modelled from the spec: [rasterio.features.shapes] is library code that
    the repository calls but does not contain.  Following section 4.4,
    adjacent cells (connectivity 4) that share the same value are merged
    into one polygon, paired with that value; only cells where the mask is
    true take part.  A polygon is represented by the pixels it covers and the
    transform that maps them to coordinates; regions come in the order of
    their first pixel.  Values are compared with float [==]; the library
    may also merge values that differ in their last bits, so nothing below
    is derived from two neighbouring values being kept apart. *)
Definition shapes (image : ndarray) (mask : boolarray) (t : Affine)
  : list (Geometry * float32) :=
  map (fun r => (PixelRegion (r_cells r) t, r_value r))
      (regions_of (valid_cells image mask)).

(** ** Configuration *)

(** A period: [(label, tmin_file, tmax_file)]. *)
Definition period : Type := string * string * string.

Record Config : Type := {
  PERIODS : list period;
  DATA_DIR : string;
  OUTPUT_DIR : string;
  BASELINE_PERIOD : option period
}.

(** The configuration written in the script. *)
Definition script_config : Config := {|
  PERIODS := [
    ("2021-2040", "wc2.1_10m_tmin_ACCESS-CM2_ssp585_2021-2040.tif",
                  "wc2.1_10m_tmax_ACCESS-CM2_ssp585_2021-2040.tif");
    ("2041-2060", "wc2.1_10m_tmin_ACCESS-CM2_ssp585_2041-2060.tif",
                  "wc2.1_10m_tmax_ACCESS-CM2_ssp585_2041-2060.tif");
    ("2061-2080", "wc2.1_10m_tmin_ACCESS-CM2_ssp585_2061-2080.tif",
                  "wc2.1_10m_tmax_ACCESS-CM2_ssp585_2061-2080.tif");
    ("2081-2100", "wc2.1_10m_tmin_ACCESS-CM2_ssp585_2081-2100.tif",
                  "wc2.1_10m_tmax_ACCESS-CM2_ssp585_2081-2100.tif")
  ];
  DATA_DIR := "";
  OUTPUT_DIR := "../../public/data";
  BASELINE_PERIOD := None
|}.

(** ** os.path.join (posixpath, two arguments) *)

Fixpoint ends_with_sep (s : string) : bool :=
  match s with
  | EmptyString => false
  | String c EmptyString => bool_decide (c = "/"%char)
  | String _ rest => ends_with_sep rest
  end.

Definition path_join (a b : string) : string :=
  if String.prefix "/" b then b
  else if bool_decide (a = "") || ends_with_sep a then a +:+ b
  else a +:+ "/" +:+ b.

(** ** create_sample_data *)

(** [(lat, lon, temp_change)] *)
Definition sample_points : list (Z * Z * float64) := [
  (60, -100, F64.dec (-25) 1);
  (45, -75, F64.dec 18 1);
  (40, -74, F64.dec 21 1);
  (35, -118, F64.dec 32 1);
  (25, -80, F64.dec 28 1);
  (60, 10, F64.dec 15 1);
  (50, 0, F64.dec 20 1);
  (40, 15, F64.dec 28 1);
  (35, 140, F64.dec 23 1);
  (22, 114, F64.dec 31 1);
  (-35, 151, F64.dec 26 1);
  (0, 0, F64.dec 12 1);
  (-20, -50, F64.dec 18 1);
  (70, -150, F64.dec (-18) 1);
  (-60, 0, F64.dec (-5) 1)
].

Definition create_sample_data (label : string) : list Feature :=
  map (fun '(lat, lon, temp_change) =>
         {| change := temp_change;
            geometry := Some (PointBuffer lon lat 5) |})
      sample_points.

(** ** main *)

(** Computations of [main]: they read and write the file system and either
    return or raise. *)
Definition IO (A : Type) : Type := FS -> FS * outcome A.

Definition io_ret {A} (a : A) : IO A := fun fs => (fs, Returns a).

Definition io_bind {A B} (m : IO A) (k : A -> IO B) : IO B :=
  fun fs =>
    match m fs with
    | (fs', Returns a) => k a fs'
    | (fs', Raises e) => (fs', Raises e)
    end.

Definition io_lift {A} (f : FS -> outcome A) : IO A := fun fs => (fs, f fs).

(** [for x in l: body(x)] *)
Fixpoint for_each {A} (body : A -> IO unit) (l : list A) : IO unit :=
  match l with
  | [] => io_ret tt
  | x :: rest => io_bind (body x) (fun _ => for_each body rest)
  end.

(** [gpd.GeoDataFrame.from_features(features, crs=crs)] *)
Definition from_features (fts : list Feature) (c : CRS) : GeoDataFrame :=
  {| features := fts; gdf_crs := c |}.

(** [gdf.to_file(out_path, driver='GeoJSON')]; the directory of [out_path]
    is taken to be there. *)
Definition to_file (gdf : GeoDataFrame) (out_path : string) : IO unit :=
  fun fs => (<[out_path := GeoJSONFile gdf]> fs, Returns tt).

Definition tmin_path_of (cfg : Config) (p : period) : string :=
  path_join (DATA_DIR cfg) (p.1.2).

Definition tmax_path_of (cfg : Config) (p : period) : string :=
  path_join (DATA_DIR cfg) (p.2).

(** [os.path.join(OUTPUT_DIR, f"avg_temp_change_{label}.json")] *)
Definition out_path_of (cfg : Config) (p : period) : string :=
  path_join (OUTPUT_DIR cfg) ("avg_temp_change_" +:+ p.1.1 +:+ ".json").

(** Lines 134-137: the grid that is vectorized. *)
Definition compute_change (avg : ndarray) (baseline_arr : option ndarray)
  : outcome ndarray :=
  match baseline_arr with
  | Some b => Numpy.subtract avg b
  | None => Returns avg
  end.

(** Lines 139-143: mask and list comprehension over [shapes]. *)
Definition vectorize (grid : ndarray) (t : Affine) : list Feature :=
  let mask := not_isnan grid in
  map (fun '(geom, val) =>
         {| change := F64.of_f32 val; geometry := Some geom |})
      (shapes grid mask t).

Definition sample_frame (label : string) : GeoDataFrame :=
  from_features (create_sample_data label) (Some "EPSG:4326").

(** The frame one iteration of the loop builds (lines 125-155). *)
Definition period_frame (cfg : Config) (baseline_arr : option ndarray)
    (p : period) (fs : FS) : outcome GeoDataFrame :=
  let label := p.1.1 in
  let tmin_path := tmin_path_of cfg p in
  let tmax_path := tmax_path_of cfg p in
  if path_exists fs tmin_path && path_exists fs tmax_path then
    match load_avg_temp fs tmin_path tmax_path with
    | Some (avg, t, c) =>
        do! grid := compute_change avg baseline_arr in
        Returns (from_features (vectorize grid t) c)
    | None => Returns (sample_frame label)
    end
  else Returns (sample_frame label).

(** One iteration of the loop (lines 121-160). *)
Definition process_period (cfg : Config) (baseline_arr : option ndarray)
    (p : period) : IO unit :=
  io_bind (io_lift (period_frame cfg baseline_arr p))
          (fun gdf => to_file gdf (out_path_of cfg p)).

(** Lines 105-109; the check uses the file names as configured, without
    [DATA_DIR]. *)
Definition tiff_files_exist (cfg : Config) (fs : FS) : bool :=
  existsb (fun p : period => path_exists fs (p.1.2) && path_exists fs (p.2))
          (PERIODS cfg).

(** Lines 116-119. *)
Definition load_baseline (cfg : Config) (fs : FS) : option ndarray :=
  match BASELINE_PERIOD cfg with
  | Some b =>
      if tiff_files_exist cfg fs then
        match load_avg_temp fs (path_join (DATA_DIR cfg) (b.1.2))
                               (path_join (DATA_DIR cfg) (b.2)) with
        | Some (baseline_arr, _, _) => Some baseline_arr
        | None => None
        end
      else None
  | None => None
  end.

(** The paths [os.makedirs(name)] needs to be directories: the text before
    each "/" of [name] and [name] itself, where it is not empty and does not
    end in "/". *)
Definition is_dir_key (s : string) : bool :=
  negb (bool_decide (s = "")) && negb (ends_with_sep s).

Fixpoint dir_keys_from (seen rest : string) : list string :=
  match rest with
  | EmptyString => if is_dir_key seen then [seen] else []
  | String c rest' =>
      (if bool_decide (c = "/"%char) && is_dir_key seen then [seen] else [])
      ++ dir_keys_from (seen +:+ String c EmptyString) rest'
  end.

Definition dir_keys (name : string) : list string := dir_keys_from "" name.

(** [os.makedirs(name, exist_ok=True)] (line 101).  [mkdir] of the empty
    path raises, and so does a file at [name] or at one of its parents;
    otherwise the directories exist afterwards, which the map of files does
    not show. *)
Definition makedirs (name : string) : IO unit :=
  fun fs =>
    if bool_decide (name = "") then (fs, Raises OSError)
    else if existsb (path_exists fs) (dir_keys name) then (fs, Raises OSError)
    else (fs, Returns tt).

(** Lines 104-160: [main] once the output directory is there. *)
Definition process_periods (cfg : Config) : IO unit :=
  fun fs =>
    let baseline_arr := load_baseline cfg fs in
    for_each (process_period cfg baseline_arr) (PERIODS cfg) fs.

Definition main (cfg : Config) : IO unit :=
  io_bind (makedirs (OUTPUT_DIR cfg)) (fun _ => process_periods cfg).


(** ** Vocabulary of the properties *)

(** Two bands on the same grid: rectangular arrays of one shape. *)
Definition same_grid {A B} (a : list (list A)) (b : list (list B)) : Prop :=
  rectangular a /\ rectangular b /\ shape a = shape b.

(** What line 44-46 does to one cell. *)
Definition apply_nodata (nd : option float32) (x : float32) : float32 :=
  match nd with
  | Some v => if F32.eqb x v then F32.nan else x
  | None => x
  end.

(** [(x + y) / 2.0 / 10.0] in binary32. *)
Definition mean_tenths (x y : float32) : float32 :=
  F32.div (F32.div (F32.add x y) (F32.of_Z 2)) (F32.of_Z 10).

(** The band after lines 44-46. *)
Definition masked_band (nd : option float32) (a : ndarray) : ndarray :=
  match nd with
  | Some v => set_nan_where_eq a v
  | None => a
  end.

(** The grid the loader computes from two bands on the same grid. *)
Definition derived_grid (nd : option float32) (tmin tmax : ndarray) : ndarray :=
  divide_scalar
    (divide_scalar
       (zip_with (zip_with F32.add) (masked_band nd tmin) (masked_band nd tmax))
       (F32.of_Z 2))
    (F32.of_Z 10).

(** Every region is made of participating pixels and carries the value of
    one of them. *)
Definition region_within (cs : list (nat * nat * float32)) (r : region) : Prop :=
  (exists c, (c, r_value r) ∈ cs) /\
  (forall c, c ∈ r_cells r -> exists v, (c, v) ∈ cs).

(** The scenario of section 8: 4x4 bands, the minimum 100 everywhere but
    for the sentinel -9999 at [(i, j)], the maximum 200 everywhere. *)
Definition example_min_band (i j : nat) : ndarray :=
  <[i := <[j := F32.of_Z (-9999)]> (repeat (F32.of_Z 100) 4)]>
    (repeat (repeat (F32.of_Z 100) 4) 4).

Definition example_max_band : ndarray := repeat (repeat (F32.of_Z 200) 4) 4.

Definition example_derived (i j : nat) : ndarray :=
  <[i := <[j := F32.nan]> (repeat (F32.of_Z 15) 4)]>
    (repeat (repeat (F32.of_Z 15) 4) 4).

Definition grid_cells (rows cols : nat) : list (nat * nat) :=
  list_prod (seq 0 rows) (seq 0 cols).

(** The labels hold no "/": every output file then lies directly in
    [OUTPUT_DIR], the directory line 101 provides; [to_file] makes no
    directory of its own. *)
Fixpoint has_sep (s : string) : bool :=
  match s with
  | EmptyString => false
  | String c rest => bool_decide (c = "/"%char) || has_sep rest
  end.

Definition plain_labels (cfg : Config) : Prop :=
  Forall (fun p : period => has_sep (p.1.1) = false) (PERIODS cfg).

(** The paths [main] reads rasters from and writes collections to. *)
Definition input_paths (cfg : Config) : list string :=
  flat_map (fun p => [tmin_path_of cfg p; tmax_path_of cfg p]) (PERIODS cfg).

Definition output_paths (cfg : Config) : list string :=
  map (out_path_of cfg) (PERIODS cfg).

(** Every period has an output file of its own and no output file is an
    input of some period. *)
Definition paths_separate (cfg : Config) : Prop :=
  NoDup (output_paths cfg) /\
  Forall (fun o => o ∉ input_paths cfg) (output_paths cfg).

(** ** Concrete inputs *)

Definition north_up : Affine :=
  mkAffine (F64.of_Z 1) (F64.of_Z 0) (F64.of_Z (-180))
           (F64.of_Z 0) (F64.of_Z (-1)) (F64.of_Z 90).

Definition wgs84 : CRS := Some "EPSG:4326".

Definition raster_of (band : ndarray) (nd : option float32) : raster :=
  {| band1 := band; nodata := nd; transform := north_up; crs := wgs84 |}.

Definition period_2021 : period :=
  ("2021-2040", "wc2.1_10m_tmin_ACCESS-CM2_ssp585_2021-2040.tif",
                "wc2.1_10m_tmax_ACCESS-CM2_ssp585_2021-2040.tif").

Definition sentinel : float32 := F32.of_Z (-9999).

(** The first period has the rasters of the 4x4 scenario, the nodata cell at
    row 1, column 2; the other periods have no file. *)
Definition fs_scenario : FS :=
  {[ tmin_path_of script_config period_2021
       := RasterFile (raster_of (example_min_band 1 2) (Some sentinel));
     tmax_path_of script_config period_2021
       := RasterFile (raster_of example_max_band None) ]}.

(** The same, after an earlier run left an output file behind. *)
Definition fs_scenario_rerun : FS :=
  <[ out_path_of script_config period_2021
       := GeoJSONFile (sample_frame "2021-2040") ]> fs_scenario.


(** One-pixel rasters holding the most negative binary32 value, no nodata
    value declared. *)
Definition fs_overflow : FS :=
  {[ tmin_path_of script_config period_2021
       := RasterFile (raster_of [[SFopp F32.max_float]] None);
     tmax_path_of script_config period_2021
       := RasterFile (raster_of [[SFopp F32.max_float]] None) ]}.

(** One-pixel rasters holding only the sentinel. *)
Definition fs_all_nodata : FS :=
  {[ tmin_path_of script_config period_2021
       := RasterFile (raster_of [[sentinel]] (Some sentinel));
     tmax_path_of script_config period_2021
       := RasterFile (raster_of [[sentinel]] (Some sentinel)) ]}.

(** The script's configuration with a baseline period whose files are
    absent from [fs_scenario]. *)
Definition config_with_baseline : Config :=
  {| PERIODS := PERIODS script_config;
     DATA_DIR := DATA_DIR script_config;
     OUTPUT_DIR := OUTPUT_DIR script_config;
     BASELINE_PERIOD :=
       Some ("1970-2000", "wc2.1_10m_tmin_1970-2000.tif",
                          "wc2.1_10m_tmax_1970-2000.tif") |}.

Definition tmin_2021 : string := tmin_path_of script_config period_2021.
Definition tmax_2021 : string := tmax_path_of script_config period_2021.
Definition scenario_min : raster := raster_of (example_min_band 1 2) (Some sentinel).
Definition scenario_max : raster := raster_of example_max_band None.
Definition period_2041 : period :=
  ("2041-2060", "wc2.1_10m_tmin_ACCESS-CM2_ssp585_2041-2060.tif",
                "wc2.1_10m_tmax_ACCESS-CM2_ssp585_2041-2060.tif").
Definition baseline_1970 : period :=
  ("1970-2000", "wc2.1_10m_tmin_1970-2000.tif", "wc2.1_10m_tmax_1970-2000.tif").


(** ** Vocabulary of the further properties *)

(** The shapes of two arrays broadcast, axis by axis. *)
Definition shapes_broadcast {A B} (a : list (list A)) (b : list (list B)) : bool :=
  match broadcast_dim (shape a).1 (shape b).1,
        broadcast_dim (shape a).2 (shape b).2 with
  | Some _, Some _ => true
  | _, _ => false
  end.

(** A binary32 value that is neither infinite nor NaN. *)
Definition finite32 (x : float32) : bool :=
  match x with
  | S754_zero _ | S754_finite _ _ _ => true
  | S754_infinity _ | S754_nan => false
  end.

(** The raster with its nodata declaration removed. *)
Definition without_nodata (r : raster) : raster :=
  {| band1 := band1 r; nodata := None; transform := transform r; crs := crs r |}.

(** The path holds a collection written by [to_file], or nothing. *)
Definition no_raster_at (fs : FS) (p : string) : Prop :=
  forall r, fs !! p <> Some (RasterFile r).

(** A configuration with a baseline whose grid is 1x3 while the period's
    grid is 1x2, and a file system that holds all four rasters. *)
Definition config_mismatch : Config :=
  {| PERIODS := [("p", "tmin.tif", "tmax.tif"); ("q", "tmin2.tif", "tmax2.tif")];
     DATA_DIR := "";
     OUTPUT_DIR := "out";
     BASELINE_PERIOD := Some ("b", "bmin.tif", "bmax.tif") |}.

Definition fs_mismatch : FS :=
  {[ "tmin.tif" := RasterFile (raster_of [[F32.of_Z 1; F32.of_Z 2]] None);
     "tmax.tif" := RasterFile (raster_of [[F32.of_Z 3; F32.of_Z 4]] None);
     "bmin.tif" := RasterFile (raster_of [[F32.of_Z 1; F32.of_Z 2; F32.of_Z 3]] None);
     "bmax.tif" := RasterFile (raster_of [[F32.of_Z 1; F32.of_Z 2; F32.of_Z 3]] None) ]}.

(** The scenario with the rasters of the baseline period added: 100
    everywhere for the minimum, 200 everywhere for the maximum. *)
Definition fs_baseline : FS :=
  <[ "wc2.1_10m_tmin_1970-2000.tif"
       := RasterFile (raster_of (repeat (repeat (F32.of_Z 100) 4) 4) None) ]>
    (<[ "wc2.1_10m_tmax_1970-2000.tif"
          := RasterFile (raster_of example_max_band None) ]> fs_scenario).

(** The configuration with another list of periods. *)
Definition with_periods (cfg : Config) (ps : list period) : Config :=
  {| PERIODS := ps;
     DATA_DIR := DATA_DIR cfg;
     OUTPUT_DIR := OUTPUT_DIR cfg;
     BASELINE_PERIOD := BASELINE_PERIOD cfg |}.

(** [s.endswith(suffix)] *)
Definition has_suffix (suffix s : string) : Prop :=
  exists pre, s = pre +:+ suffix.

Fixpoint last_char (s : string) : option ascii :=
  match s with
  | EmptyString => None
  | String c EmptyString => Some c
  | String _ rest => last_char rest
  end.

(** The scenario with a maximum raster that declares its own nodata value
    (200, the value of all of its cells), another transform and no
    reference. *)
Definition scenario_max_other : raster :=
  {| band1 := example_max_band;
     nodata := Some (F32.of_Z 200);
     transform := mkAffine (F64.of_Z 2) (F64.of_Z 0) (F64.of_Z 0)
                           (F64.of_Z 0) (F64.of_Z (-2)) (F64.of_Z 0);
     crs := None |}.

Definition fs_scenario_other : FS :=
  <[ tmax_2021 := RasterFile scenario_max_other ]> fs_scenario.

(** The scenario with NaN declared as the nodata value. *)
Definition scenario_min_nan : raster :=
  raster_of (example_min_band 1 2) (Some F32.nan).

Definition fs_nan_nodata : FS :=
  {[ tmin_2021 := RasterFile scenario_min_nan;
     tmax_2021 := RasterFile scenario_max ]}.

Definition fs_nan_nodata_undeclared : FS :=
  {[ tmin_2021 := RasterFile (without_nodata scenario_min_nan);
     tmax_2021 := RasterFile scenario_max ]}.

(** Only the minimum raster of the first period is present. *)
Definition fs_half : FS := {[ tmin_2021 := RasterFile scenario_min ]}.

(** * Properties *)

(** ** Arrays *)

Section Arrays.
Context {A B C : Type}.

Lemma stretch_id (n : nat) (l : list A) : length l = n -> stretch n l = l.
Proof.
  destruct l as [|x [|y l]]; simpl; intros <-; reflexivity.
Qed.

Lemma broadcast_dim_refl (n : nat) : broadcast_dim n n = Some n.
Proof. unfold broadcast_dim. now rewrite Nat.eqb_refl. Qed.

Lemma cell_map2d (f : A -> B) (a : list (list A)) (i j : nat) :
  cell (map2d f a) i j = f <$> cell a i j.
Proof.
  unfold cell, map2d. rewrite list_lookup_fmap.
  destruct (a !! i) as [row|]; simpl; [|reflexivity].
  apply list_lookup_fmap.
Qed.

Lemma shape_map2d (f : A -> B) (a : list (list A)) :
  shape (map2d f a) = shape a.
Proof.
  unfold shape, map2d. rewrite length_map.
  destruct a; simpl; [reflexivity | now rewrite length_map].
Qed.

Lemma rectangular_map2d (f : A -> B) (a : list (list A)) :
  rectangular a -> rectangular (map2d f a).
Proof.
  unfold rectangular. rewrite shape_map2d. unfold map2d.
  intros H. apply Forall_fmap. eapply Forall_impl; [exact H|].
  intros row Hrow. simpl. now rewrite length_map.
Qed.

Lemma cell_zip_with (f : A -> B -> C) (a : list (list A)) (b : list (list B))
    (i j : nat) (x : A) (y : B) :
  cell a i j = Some x -> cell b i j = Some y ->
  cell (zip_with (zip_with f) a b) i j = Some (f x y).
Proof.
  unfold cell. intros Ha Hb.
  destruct (a !! i) as [ra|] eqn:Ea; [|discriminate].
  destruct (b !! i) as [rb|] eqn:Eb; [|discriminate].
  simpl in *. rewrite lookup_zip_with, Ea. simpl. rewrite Eb. simpl.
  rewrite lookup_zip_with, Ha. simpl. now rewrite Hb.
Qed.

Lemma shape_zip_with (f : A -> B -> C) (a : list (list A)) (b : list (list B)) :
  shape a = shape b -> shape (zip_with (zip_with f) a b) = shape a.
Proof.
  unfold shape. intros [= Hr Hc].
  rewrite length_zip_with, <- Hr, Nat.min_id. f_equal.
  destruct a as [|ra a], b as [|rb b]; simpl in *; try discriminate; [reflexivity|].
  rewrite length_zip_with, <- Hc. apply Nat.min_id.
Qed.
End Arrays.

Lemma zip_with_stretch_rows (f : float32 -> float32 -> float32) (c : nat)
    (a b : ndarray) :
  Forall (fun row => length row = c) a ->
  Forall (fun row => length row = c) b ->
  zip_with (fun x y => zip_with f (stretch c x) (stretch c y)) a b
  = zip_with (zip_with f) a b.
Proof.
  intros Ha. revert b.
  induction Ha as [|ra a Hra Ha IH]; intros b Hb; [reflexivity|].
  destruct Hb as [|rb b Hrb Hb]; [reflexivity|].
  simpl. rewrite (stretch_id c ra Hra), (stretch_id c rb Hrb).
  f_equal. now apply IH.
Qed.

Lemma ufunc2_same_grid (f : float32 -> float32 -> float32) (a b : ndarray) :
  same_grid a b -> ufunc2 f a b = Returns (zip_with (zip_with f) a b).
Proof.
  intros (Ha & Hb & Hs). unfold ufunc2.
  pose proof Hs as Hs'. unfold shape in Hs'. injection Hs' as Hr Hc.
  unfold rectangular, shape in *. simpl in *. rewrite <- Hr, <- Hc in *.
  rewrite !broadcast_dim_refl.
  rewrite (stretch_id _ a eq_refl), (stretch_id _ b (eq_sym Hr)).
  now rewrite zip_with_stretch_rows.
Qed.

Lemma rectangular_zip_with (f : float32 -> float32 -> float32) (a b : ndarray) :
  same_grid a b -> rectangular (zip_with (zip_with f) a b).
Proof.
  intros (Ha & Hb & Hs). unfold rectangular.
  rewrite (shape_zip_with f a b Hs).
  unfold rectangular in Ha, Hb. rewrite <- Hs in Hb.
  set (c := (shape a).2) in *. clearbody c. clear Hs.
  revert b Hb. induction Ha as [|ra a Hra Ha IH]; intros b Hb; [constructor|].
  destruct Hb as [|rb b Hrb Hb]; [constructor|].
  simpl. constructor; [|now apply IH].
  rewrite length_zip_with, Hra, Hrb. apply Nat.min_id.
Qed.


(** ** Connected regions *)

Lemma elem_of_concat {A} (x : A) (ls : list (list A)) :
  x ∈ concat ls <-> exists l, x ∈ l /\ l ∈ ls.
Proof.
  rewrite list_elem_of_In, in_concat. split.
  - intros (l & Hl & Hx). exists l. now rewrite !list_elem_of_In.
  - intros (l & Hx & Hl). exists l. now rewrite <- !list_elem_of_In.
Qed.

Lemma valid_cells_spec (image : ndarray) (mask : boolarray) i j v :
  (i, j, v) ∈ valid_cells image mask <->
  mask_at mask i j = true /\ cell image i j = Some v.
Proof.
  unfold valid_cells, cell. rewrite elem_of_concat. split.
  - intros (l & Hin & Hl).
    apply elem_of_lookup_imap in Hl as (i' & row & -> & Hrow).
    apply list_elem_of_omap in Hin as (o & Ho & Hsome). subst o.
    apply elem_of_lookup_imap in Ho as (j' & w & Heq & Hw).
    destruct (mask_at mask i' j') eqn:Hm; [|discriminate].
    injection Heq as -> -> ->. rewrite Hrow. simpl. auto.
  - intros (Hm & Hc).
    destruct (image !! i) as [row|] eqn:Hrow; simpl in Hc; [|discriminate Hc].
    eexists. split.
    2:{ apply elem_of_lookup_imap. exists i, row. split; [reflexivity|exact Hrow]. }
    apply list_elem_of_omap. exists (Some (i, j, v)). split; [|reflexivity].
    apply elem_of_lookup_imap. exists j, v. rewrite Hm. auto.
Qed.

Lemma add_cell_within cs c v regions :
  (c, v) ∈ cs ->
  Forall (region_within cs) regions ->
  Forall (region_within cs) (add_cell c v regions).
Proof.
  intros Hc. induction 1 as [|r rest Hr Hrest IH]; simpl.
  - repeat constructor; simpl; eauto.
    intros c' Hc'. apply list_elem_of_singleton in Hc' as ->. eauto.
  - destruct (touches c v r).
    + constructor.
      * destruct Hr as [Hv Hcells]. split; [exact Hv|]. simpl.
        intros c' Hc'. rewrite !elem_of_app in Hc'.
        destruct Hc' as [Hc'|[Hc'|Hc']].
        -- now apply Hcells.
        -- apply elem_of_concat in Hc' as (l & Hc' & Hl).
           apply list_elem_of_fmap in Hl as (r' & -> & Hr').
           apply list_elem_of_In, filter_In in Hr' as [Hr' _].
           apply list_elem_of_In in Hr'.
           rewrite Forall_forall in Hrest. now apply (Hrest r' Hr').
        -- apply list_elem_of_singleton in Hc' as ->. eauto.
      * rewrite Forall_forall in *. intros r' Hr'.
        apply list_elem_of_In, filter_In in Hr' as [Hr' _].
        apply Hrest. now apply list_elem_of_In.
    + constructor; assumption.
Qed.

Lemma regions_of_within cs : Forall (region_within cs) (regions_of cs).
Proof.
  unfold regions_of.
  assert (H : forall cs' regions,
             cs' ⊆ cs -> Forall (region_within cs) regions ->
             Forall (region_within cs)
               (fold_left (fun regions '(c, v) => add_cell c v regions) cs' regions)).
  { induction cs' as [|[c v] cs' IH]; intros regions Hsub Hreg; [exact Hreg|].
    simpl. apply IH.
    - intros x Hx. apply Hsub. now right.
    - apply add_cell_within; [|exact Hreg]. apply Hsub. now left. }
  apply H; [reflexivity | constructor].
Qed.

(** What [shapes] yields: the value of a pixel that takes part, around
    pixels that take part. *)
Lemma shapes_sound (image : ndarray) (mask : boolarray) (t : Affine) g v :
  (g, v) ∈ shapes image mask t ->
  exists cells,
    g = PixelRegion cells t /\
    (exists i j, mask_at mask i j = true /\ cell image i j = Some v) /\
    (forall i j, (i, j) ∈ cells -> mask_at mask i j = true).
Proof.
  unfold shapes. intros Hin.
  apply list_elem_of_fmap in Hin as (r & [= -> ->] & Hr).
  pose proof (regions_of_within (valid_cells image mask)) as Hall.
  rewrite Forall_forall in Hall. destruct (Hall r Hr) as [[[i j] Hv] Hcells].
  exists (r_cells r). split; [reflexivity|]. split.
  - exists i, j. now apply valid_cells_spec.
  - intros i' j' Hc. destruct (Hcells _ Hc) as [w Hw].
    now apply valid_cells_spec in Hw.
Qed.

Lemma shapes_nil (image : ndarray) (mask : boolarray) (t : Affine) :
  (forall i j, mask_at mask i j = false) -> shapes image mask t = [].
Proof.
  intros Hmask. unfold shapes.
  destruct (valid_cells image mask) as [|[[i j] v] cs] eqn:E; [reflexivity|].
  assert (Hin : (i, j, v) ∈ valid_cells image mask) by (rewrite E; left).
  apply valid_cells_spec in Hin as [Hm _]. now rewrite Hmask in Hm.
Qed.

(** Every pixel that takes part lies in some region. *)
Lemma add_cell_covers c v regions :
  exists r, r ∈ add_cell c v regions /\ c ∈ r_cells r.
Proof.
  induction regions as [|r rest IH]; simpl.
  - eexists. split; [left|]. simpl. left.
  - destruct (touches c v r).
    + eexists. split; [left|]. simpl. rewrite !elem_of_app. right. right. left.
    + destruct IH as (r' & Hr' & Hc). exists r'. split; [now right|exact Hc].
Qed.

Lemma add_cell_keeps c v regions c' :
  (exists r, r ∈ regions /\ c' ∈ r_cells r) ->
  exists r, r ∈ add_cell c v regions /\ c' ∈ r_cells r.
Proof.
  induction regions as [|r rest IH]; intros (r0 & Hr0 & Hc').
  - inversion Hr0.
  - simpl. destruct (touches c v r) eqn:Ht.
    + apply elem_of_cons in Hr0 as [->|Hr0].
      * eexists. split; [left|]. simpl. rewrite elem_of_app. now left.
      * destruct (touches c v r0) eqn:Ht0.
        -- eexists. split; [left|]. simpl. rewrite !elem_of_app. right. left.
           apply elem_of_concat. exists (r_cells r0). split; [exact Hc'|].
           apply list_elem_of_fmap. exists r0. split; [reflexivity|].
           apply list_elem_of_In, filter_In. split; [now apply list_elem_of_In|exact Ht0].
        -- exists r0. split; [|exact Hc']. right.
           apply list_elem_of_In, filter_In. split; [now apply list_elem_of_In|].
           now rewrite Ht0.
    + apply elem_of_cons in Hr0 as [->|Hr0].
      * exists r. split; [left|exact Hc'].
      * destruct IH as (r' & Hr' & Hc); [eauto|].
        exists r'. split; [now right|exact Hc].
Qed.

Lemma regions_of_covers cs c v :
  (c, v) ∈ cs -> exists r, r ∈ regions_of cs /\ c ∈ r_cells r.
Proof.
  unfold regions_of. generalize (@nil region) as regions.
  induction cs as [|[c0 v0] cs IH]; intros regions Hin; [inversion Hin|].
  simpl. apply elem_of_cons in Hin as [[= <- <-]|Hin]; [|now apply IH].
  generalize (add_cell_covers c v regions).
  generalize (add_cell c v regions) as regions'. clear.
  induction cs as [|[c1 v1] cs IH]; intros regions' H; [exact H|].
  simpl. apply IH. now apply add_cell_keeps.
Qed.


(** ** Floating point *)

Section Rounding.
Variables prec emax : Z.

Lemma shr_1_nonneg mrs : 0 <= shr_m mrs -> 0 <= shr_m (shr_1 mrs).
Proof.
  destruct mrs as [m r s]. destruct m as [|[p|p|]|[p|p|]]; simpl; lia.
Qed.

Lemma iter_shr_1_nonneg p : forall mrs,
  0 <= shr_m mrs -> 0 <= shr_m (SpecFloat.iter_pos shr_1 p mrs).
Proof.
  induction p as [p IH|p IH|]; simpl; intros mrs H.
  - apply IH, IH. now apply shr_1_nonneg.
  - now apply IH, IH.
  - now apply shr_1_nonneg.
Qed.

Lemma shr_fexp_nonneg m e l :
  0 <= m -> 0 <= shr_m (shr_fexp prec emax m e l).1.
Proof.
  intros H. unfold shr_fexp, shr.
  assert (H0 : 0 <= shr_m (shr_record_of_loc m l)) by (destruct l as [|[]]; exact H).
  destruct (_ - e); simpl; [exact H0 | | exact H0].
  now apply iter_shr_1_nonneg.
Qed.

Lemma round_nearest_even_nonneg m l : 0 <= m -> 0 <= round_nearest_even m l.
Proof.
  intros H. destruct l as [|[]]; simpl; try destruct (Z.even m); lia.
Qed.

Lemma binary_round_aux_not_nan s m e l :
  0 <= m -> binary_round_aux prec emax s m e l <> S754_nan.
Proof.
  intros H. unfold binary_round_aux.
  pose proof (shr_fexp_nonneg m e l H) as H1.
  destruct (shr_fexp prec emax m e l) as [mrs' e']. simpl in H1.
  pose proof (shr_fexp_nonneg _ e' loc_Exact
                (round_nearest_even_nonneg _ (loc_of_shr_record mrs') H1)) as H2.
  destruct (shr_fexp prec emax _ e' loc_Exact) as [mrs'' e'']. simpl in H2.
  destruct (shr_m mrs''); [discriminate | | lia].
  destruct (e'' <=? emax - prec); discriminate.
Qed.

Lemma binary_round_not_nan s m e : binary_round prec emax s m e <> S754_nan.
Proof.
  unfold binary_round. destruct (shl_align _ _ _) as [mz ez].
  now apply binary_round_aux_not_nan.
Qed.
End Rounding.

Lemma of_f32_isnan (x : float32) : F64.isnan (F64.of_f32 x) = F32.isnan x.
Proof.
  destruct x as [s|s| |s m e]; try reflexivity. simpl.
  pose proof (binary_round_not_nan F64.prec F64.emax s m e) as H.
  destruct (binary_round F64.prec F64.emax s m e); try reflexivity. now destruct H.
Qed.

Lemma add_nan_l y : F32.add F32.nan y = F32.nan.
Proof. reflexivity. Qed.

Lemma add_nan_r x : F32.add x F32.nan = F32.nan.
Proof. now destruct x. Qed.

Lemma sub_nan_l y : F32.sub F32.nan y = F32.nan.
Proof. reflexivity. Qed.

Lemma sub_nan_r x : F32.sub x F32.nan = F32.nan.
Proof. now destruct x. Qed.

Lemma isnan_eq x : F32.isnan x = true <-> x = F32.nan.
Proof. unfold F32.nan. destruct x; simpl; split; congruence. Qed.

Lemma mean_tenths_nan_l y : mean_tenths F32.nan y = F32.nan.
Proof. reflexivity. Qed.

Lemma mean_tenths_nan_r x : mean_tenths x F32.nan = F32.nan.
Proof. unfold mean_tenths. now rewrite add_nan_r. Qed.


(** ** The loader *)

Lemma cell_is_Some {A} (a : list (list A)) i j :
  rectangular a ->
  is_Some (cell a i j) <-> (i < (shape a).1 /\ j < (shape a).2)%nat.
Proof.
  intros Hrect. unfold rectangular, cell, shape in *. simpl in *. split.
  - intros [x Hx].
    destruct (a !! i) as [row|] eqn:Hrow; simpl in Hx; [|discriminate Hx].
    split; [now apply lookup_lt_Some in Hrow|].
    rewrite Forall_forall in Hrect.
    rewrite <- (Hrect row); [now apply lookup_lt_Some in Hx|].
    eapply list_elem_of_lookup_2; eauto.
  - intros [Hi Hj].
    destruct (lookup_lt_is_Some_2 a i Hi) as [row Hrow]. rewrite Hrow. simpl.
    apply lookup_lt_is_Some_2.
    rewrite Forall_forall in Hrect. rewrite (Hrect row); [exact Hj|].
    eapply list_elem_of_lookup_2; eauto.
Qed.

Lemma same_grid_cell {A B} (a : list (list A)) (b : list (list B)) i j x :
  same_grid a b -> cell a i j = Some x -> exists y, cell b i j = Some y.
Proof.
  intros (Ha & Hb & Hs) Hx.
  assert (H : is_Some (cell a i j)) by eauto.
  apply (cell_is_Some a i j Ha) in H. rewrite Hs in H.
  now apply (cell_is_Some b i j Hb) in H.
Qed.

Lemma masked_band_map2d nd a : masked_band nd a = map2d (apply_nodata nd) a.
Proof.
  destruct nd; simpl; [reflexivity|].
  unfold map2d. rewrite <- (list_fmap_id a) at 1.
  apply list_fmap_ext. intros _ row _. symmetry. apply list_fmap_id.
Qed.

Lemma same_grid_map2d {A B A' B'} (f : A -> A') (g : B -> B')
    (a : list (list A)) (b : list (list B)) :
  same_grid a b -> same_grid (map2d f a) (map2d g b).
Proof.
  intros (Ha & Hb & Hs). repeat split.
  - now apply rectangular_map2d.
  - now apply rectangular_map2d.
  - now rewrite !shape_map2d.
Qed.

Lemma load_avg_temp_readable fs tmin_path tmax_path rmin rmax :
  fs !! tmin_path = Some (RasterFile rmin) ->
  fs !! tmax_path = Some (RasterFile rmax) ->
  same_grid (band1 rmin) (band1 rmax) ->
  load_avg_temp fs tmin_path tmax_path
  = Some (derived_grid (nodata rmin) (band1 rmin) (band1 rmax),
          transform rmin, crs rmin).
Proof.
  intros Hmin Hmax Hgrid.
  unfold load_avg_temp, load_avg_temp_try, rasterio_open.
  rewrite Hmin, Hmax. simpl.
  assert (Hadd : Numpy.add (masked_band (nodata rmin) (band1 rmin))
                           (masked_band (nodata rmin) (band1 rmax))
                 = Returns (zip_with (zip_with F32.add)
                              (masked_band (nodata rmin) (band1 rmin))
                              (masked_band (nodata rmin) (band1 rmax)))).
  { apply ufunc2_same_grid. rewrite !masked_band_map2d.
    now apply same_grid_map2d. }
  unfold derived_grid. destruct (nodata rmin); simpl in *; now rewrite Hadd.
Qed.

Lemma shape_derived_grid nd tmin tmax :
  same_grid tmin tmax -> shape (derived_grid nd tmin tmax) = shape tmin.
Proof.
  intros Hgrid. unfold derived_grid, divide_scalar.
  rewrite !shape_map2d, !masked_band_map2d.
  rewrite shape_zip_with; [apply shape_map2d|].
  rewrite !shape_map2d. apply Hgrid.
Qed.

Lemma rectangular_derived_grid nd tmin tmax :
  same_grid tmin tmax -> rectangular (derived_grid nd tmin tmax).
Proof.
  intros Hgrid. unfold derived_grid, divide_scalar.
  do 2 apply rectangular_map2d. apply rectangular_zip_with.
  rewrite !masked_band_map2d. now apply same_grid_map2d.
Qed.

Lemma cell_derived_grid nd tmin tmax i j x y :
  cell tmin i j = Some x -> cell tmax i j = Some y ->
  cell (derived_grid nd tmin tmax) i j
  = Some (mean_tenths (apply_nodata nd x) (apply_nodata nd y)).
Proof.
  intros Hx Hy. unfold derived_grid, divide_scalar.
  rewrite !cell_map2d, !masked_band_map2d.
  erewrite cell_zip_with; [reflexivity| |]; rewrite cell_map2d.
  - now rewrite Hx.
  - now rewrite Hy.
Qed.

(** C1. For two readable rasters on the same grid, [load_avg_temp] returns
    a grid of the shape of the bands whose every cell is, in binary32
    arithmetic, the mean of the two band-1 cells divided by 10, the cells
    being taken after the nodata replacement of lines 44-46; a cell that is
    not the sentinel is the cell as read.  The transform and the spatial
    reference returned are those of the minimum-temperature raster. *)
Theorem C1_load_avg_temp_mean fs tmin_path tmax_path rmin rmax :
  fs !! tmin_path = Some (RasterFile rmin) ->
  fs !! tmax_path = Some (RasterFile rmax) ->
  same_grid (band1 rmin) (band1 rmax) ->
  exists avg,
    load_avg_temp fs tmin_path tmax_path = Some (avg, transform rmin, crs rmin) /\
    shape avg = shape (band1 rmin) /\
    (forall i j x y,
       cell (band1 rmin) i j = Some x -> cell (band1 rmax) i j = Some y ->
       cell avg i j
       = Some (mean_tenths (apply_nodata (nodata rmin) x)
                           (apply_nodata (nodata rmin) y))) /\
    (forall i j x y,
       cell (band1 rmin) i j = Some x -> cell (band1 rmax) i j = Some y ->
       (forall nd, nodata rmin = Some nd ->
                   F32.eqb x nd = false /\ F32.eqb y nd = false) ->
       cell avg i j
       = Some (F32.div (F32.div (F32.add x y) (F32.of_Z 2)) (F32.of_Z 10))).
Proof.
  intros Hmin Hmax Hgrid.
  exists (derived_grid (nodata rmin) (band1 rmin) (band1 rmax)).
  split; [|split; [|split]].
  - apply load_avg_temp_readable; assumption.
  - now apply shape_derived_grid.
  - intros i j x y Hx Hy. now apply cell_derived_grid.
  - intros i j x y Hx Hy Hnd. rewrite (cell_derived_grid _ _ _ i j x y Hx Hy).
    unfold apply_nodata, mean_tenths. destruct (nodata rmin) as [nd|]; [|reflexivity].
    destruct (Hnd nd eq_refl) as [-> ->]. reflexivity.
Qed.


(** ** One iteration of the loop *)

Lemma load_avg_temp_exists fs a b r :
  load_avg_temp fs a b = Some r ->
  path_exists fs a = true /\ path_exists fs b = true.
Proof.
  unfold load_avg_temp, load_avg_temp_try, rasterio_open, path_exists.
  destruct (fs !! a) as [[ra|ea|ga]|]; simpl;
    try (destruct ea; discriminate); try discriminate.
  destruct (fs !! b) as [[rb|eb|gb]|]; simpl;
    try (destruct eb; discriminate); try discriminate.
  auto.
Qed.

Lemma period_frame_loaded cfg baseline_arr p fs avg t c :
  load_avg_temp fs (tmin_path_of cfg p) (tmax_path_of cfg p) = Some (avg, t, c) ->
  period_frame cfg baseline_arr p fs
  = bind_outcome (compute_change avg baseline_arr)
      (fun grid => Returns (from_features (vectorize grid t) c)).
Proof.
  intros Hload. unfold period_frame.
  destruct (load_avg_temp_exists _ _ _ _ Hload) as [-> ->]. simpl.
  now rewrite Hload.
Qed.

Lemma period_frame_missing cfg baseline_arr p fs :
  fs !! tmin_path_of cfg p = None \/ fs !! tmax_path_of cfg p = None ->
  period_frame cfg baseline_arr p fs = Returns (sample_frame (p.1.1)).
Proof.
  intros H. unfold period_frame, path_exists.
  destruct H as [-> | ->]; [reflexivity|].
  now destruct (fs !! tmin_path_of cfg p).
Qed.

Lemma period_frame_load_failed cfg baseline_arr p fs :
  load_avg_temp fs (tmin_path_of cfg p) (tmax_path_of cfg p) = None ->
  period_frame cfg baseline_arr p fs = Returns (sample_frame (p.1.1)).
Proof.
  intros H. unfold period_frame. rewrite H. now destruct (_ && _).
Qed.

Lemma process_period_frame cfg baseline_arr p fs gdf :
  period_frame cfg baseline_arr p fs = Returns gdf ->
  process_period cfg baseline_arr p fs
  = (<[out_path_of cfg p := GeoJSONFile gdf]> fs, Returns tt).
Proof.
  intros H. unfold process_period, io_bind, io_lift, to_file. now rewrite H.
Qed.

Lemma mask_at_not_isnan grid i j :
  mask_at (not_isnan grid) i j = true <->
  exists x, cell grid i j = Some x /\ F32.isnan x = false.
Proof.
  unfold mask_at, not_isnan. rewrite cell_map2d.
  destruct (cell grid i j) as [x|]; simpl.
  - rewrite negb_true_iff. split; [eauto|]. now intros (y & [= <-] & H).
  - split; [discriminate|]. now intros (y & H & _).
Qed.

Lemma elem_of_vectorize ft grid t :
  ft ∈ vectorize grid t ->
  exists cells v,
    ft = {| change := F64.of_f32 v; geometry := Some (PixelRegion cells t) |} /\
    (exists i j, cell grid i j = Some v) /\
    F32.isnan v = false /\
    (forall i j, (i, j) ∈ cells -> mask_at (not_isnan grid) i j = true).
Proof.
  unfold vectorize. intros Hin.
  apply list_elem_of_fmap in Hin as ([g v] & -> & Hgv).
  apply shapes_sound in Hgv as (cells & -> & (i & j & Hm & Hv) & Hcells).
  exists cells, v. split; [reflexivity|]. split; [eauto|]. split; [|exact Hcells].
  apply mask_at_not_isnan in Hm as (x & Hx & Hnan). congruence.
Qed.

Lemma sample_features_finite label ft :
  ft ∈ create_sample_data label ->
  geometry ft <> None /\ F64.isfinite (change ft) = true.
Proof.
  unfold create_sample_data. intros Hin.
  apply list_elem_of_fmap in Hin as ([[lat lon] v] & -> & Hin). simpl.
  split; [discriminate|].
  unfold sample_points in Hin.
  repeat (apply elem_of_cons in Hin as [[= _ _ ->]|Hin]; [vm_compute; reflexivity|]).
  inversion Hin.
Qed.

(** C2. For a period whose grid loads: with a baseline on the same grid the
    vectorized grid is the cell-wise binary32 difference derived - baseline,
    which is NaN wherever either cell is NaN; with no baseline it is the
    derived grid itself. *)
Theorem C2_change_grid cfg p fs avg t c :
  load_avg_temp fs (tmin_path_of cfg p) (tmax_path_of cfg p) = Some (avg, t, c) ->
  (period_frame cfg None p fs = Returns (from_features (vectorize avg t) c) /\
   compute_change avg None = Returns avg) /\
  (forall b, same_grid avg b ->
     exists grid,
       compute_change avg (Some b) = Returns grid /\
       period_frame cfg (Some b) p fs
       = Returns (from_features (vectorize grid t) c) /\
       shape grid = shape avg /\
       forall i j x y,
         cell avg i j = Some x -> cell b i j = Some y ->
         cell grid i j = Some (F32.sub x y) /\
         (F32.isnan x = true \/ F32.isnan y = true ->
          cell grid i j = Some F32.nan)).
Proof.
  intros Hload. split.
  - split; [|reflexivity]. now rewrite (period_frame_loaded _ _ _ _ _ _ _ Hload).
  - intros b Hgrid. exists (zip_with (zip_with F32.sub) avg b).
    assert (Hsub : compute_change avg (Some b)
                   = Returns (zip_with (zip_with F32.sub) avg b))
      by (now apply ufunc2_same_grid).
    split; [exact Hsub|]. split; [|split].
    + now rewrite (period_frame_loaded _ _ _ _ _ _ _ Hload), Hsub.
    + apply shape_zip_with, Hgrid.
    + intros i j x y Hx Hy.
      rewrite (cell_zip_with F32.sub avg b i j x y Hx Hy).
      split; [reflexivity|]. intros [H|H]; apply isnan_eq in H; subst.
      * now rewrite sub_nan_l.
      * now rewrite sub_nan_r.
Qed.

(** C3. When the minimum-temperature raster declares a nodata value, a cell
    whose minimum or maximum value equals it is NaN in the array it sits in
    before the sum is taken, is NaN in the derived grid, is NaN in the grid
    that is vectorized (with or without a baseline on the same grid), has a
    false validity mask, and belongs to no polygon of the output. *)
Theorem C3_nodata_masked fs tmin_path tmax_path rmin rmax nd i j x y :
  fs !! tmin_path = Some (RasterFile rmin) ->
  fs !! tmax_path = Some (RasterFile rmax) ->
  same_grid (band1 rmin) (band1 rmax) ->
  nodata rmin = Some nd ->
  cell (band1 rmin) i j = Some x ->
  cell (band1 rmax) i j = Some y ->
  F32.eqb x nd = true \/ F32.eqb y nd = true ->
  (F32.eqb x nd = true ->
   cell (set_nan_where_eq (band1 rmin) nd) i j = Some F32.nan) /\
  (F32.eqb y nd = true ->
   cell (set_nan_where_eq (band1 rmax) nd) i j = Some F32.nan) /\
  exists avg,
    load_avg_temp fs tmin_path tmax_path = Some (avg, transform rmin, crs rmin) /\
    cell avg i j = Some F32.nan /\
    forall baseline_arr,
      (forall b, baseline_arr = Some b -> same_grid avg b) ->
      exists grid,
        compute_change avg baseline_arr = Returns grid /\
        cell grid i j = Some F32.nan /\
        mask_at (not_isnan grid) i j = false /\
        forall ft cells t',
          ft ∈ vectorize grid (transform rmin) ->
          geometry ft = Some (PixelRegion cells t') ->
          (i, j) ∉ cells.
Proof.
  intros Hmin Hmax Hgrid Hnd Hx Hy Heq.
  split; [|split].
  - intros E. unfold set_nan_where_eq. rewrite cell_map2d, Hx. simpl. now rewrite E.
  - intros E. unfold set_nan_where_eq. rewrite cell_map2d, Hy. simpl. now rewrite E.
  - exists (derived_grid (nodata rmin) (band1 rmin) (band1 rmax)).
    split; [now apply load_avg_temp_readable|].
    assert (Havg : cell (derived_grid (nodata rmin) (band1 rmin) (band1 rmax)) i j
                   = Some F32.nan).
    { rewrite (cell_derived_grid _ _ _ i j x y Hx Hy), Hnd. simpl. f_equal.
      destruct Heq as [-> | ->].
      - apply mean_tenths_nan_l.
      - apply mean_tenths_nan_r. }
    split; [exact Havg|].
    set (avg := derived_grid _ _ _) in *. clearbody avg.
    intros baseline_arr Hb.
    assert (Hchange : exists grid,
               compute_change avg baseline_arr = Returns grid /\
               cell grid i j = Some F32.nan).
    { destruct baseline_arr as [b|]; simpl; [|eauto].
      specialize (Hb b eq_refl).
      exists (zip_with (zip_with F32.sub) avg b).
      split; [now apply ufunc2_same_grid|].
      destruct (same_grid_cell avg b i j _ Hb Havg) as [w Hw].
      now rewrite (cell_zip_with F32.sub avg b i j _ w Havg Hw). }
    destruct Hchange as (grid & Hgridv & Hcell).
    exists grid. split; [exact Hgridv|]. split; [exact Hcell|].
    assert (Hmask : mask_at (not_isnan grid) i j = false).
    { unfold mask_at, not_isnan. now rewrite cell_map2d, Hcell. }
    split; [exact Hmask|].
    intros ft cells t' Hft Hgeo Hin.
    apply elem_of_vectorize in Hft as (cells' & v & -> & _ & _ & Hcells).
    simpl in Hgeo. injection Hgeo as <- <-.
    apply Hcells in Hin. congruence.
Qed.


(** C4. A period with a missing input file writes the fallback collection:
    15 features, the k-th being the buffer of radius 5 around the k-th
    hardcoded point [(lat, lon)] (as [Point(lon, lat)]) with the k-th
    hardcoded value, in EPSG:4326.  The collection is the same for every
    period, configuration and baseline; only the path it is written to,
    [OUTPUT_DIR/avg_temp_change_<label>.json], depends on the period. *)
Theorem C4_missing_inputs_fallback cfg baseline_arr p fs :
  fs !! tmin_path_of cfg p = None \/ fs !! tmax_path_of cfg p = None ->
  exists gdf,
    process_period cfg baseline_arr p fs
    = (<[out_path_of cfg p := GeoJSONFile gdf]> fs, Returns tt) /\
    out_path_of cfg p
    = path_join (OUTPUT_DIR cfg) ("avg_temp_change_" +:+ p.1.1 +:+ ".json") /\
    length (features gdf) = 15%nat /\
    Forall2 (fun ft '(lat, lon, v) =>
               change ft = v /\ geometry ft = Some (PointBuffer lon lat 5))
            (features gdf) sample_points /\
    gdf_crs gdf = Some "EPSG:4326" /\
    forall cfg' baseline_arr' p' fs',
      fs' !! tmin_path_of cfg' p' = None \/ fs' !! tmax_path_of cfg' p' = None ->
      process_period cfg' baseline_arr' p' fs'
      = (<[out_path_of cfg' p' := GeoJSONFile gdf]> fs', Returns tt).
Proof.
  intros Hmiss. exists (sample_frame (p.1.1)).
  split; [|split; [|split; [|split; [|split]]]].
  - apply process_period_frame. now apply period_frame_missing.
  - reflexivity.
  - reflexivity.
  - simpl. unfold create_sample_data.
    induction sample_points as [|[[lat lon] v] pts IH]; constructor; auto.
  - reflexivity.
  - intros cfg' baseline_arr' p' fs' Hmiss'.
    change (sample_frame (p.1.1)) with (sample_frame (p'.1.1)).
    apply process_period_frame. now apply period_frame_missing.
Qed.


(** C6, as the code has it. Every feature of the frame a period builds has a
    geometry, and its [change] is not NaN; on the fallback path it is
    moreover finite.  On the real-data path the mask [~isnan] lets
    infinite cells through. *)
Theorem C6_features_not_nan cfg baseline_arr p fs gdf :
  period_frame cfg baseline_arr p fs = Returns gdf ->
  forall ft, ft ∈ features gdf ->
    geometry ft <> None /\
    F64.isnan (change ft) = false /\
    (gdf = sample_frame (p.1.1) -> F64.isfinite (change ft) = true).
Proof.
  intros Hframe ft Hft.
  assert (Hsample : forall ft', ft' ∈ create_sample_data (p.1.1) ->
            geometry ft' <> None /\ F64.isnan (change ft') = false).
  { intros ft' Hft'. apply sample_features_finite in Hft' as [Hg Hfin].
    split; [exact Hg|]. now destruct (change ft'). }
  assert (Hfin : gdf = sample_frame (p.1.1) -> F64.isfinite (change ft) = true).
  { intros ->. now apply (sample_features_finite (p.1.1)). }
  assert (Hgoal : geometry ft <> None /\ F64.isnan (change ft) = false);
    [|destruct Hgoal; auto].
  unfold period_frame in Hframe.
  destruct (_ && _).
  - destruct (load_avg_temp _ _ _) as [[[avg t] c]|].
    + destruct (compute_change avg baseline_arr) as [grid|e'];
        simpl in Hframe; [|discriminate Hframe].
      injection Hframe as <-. simpl in Hft.
      apply elem_of_vectorize in Hft as (cells & v & -> & _ & Hnan & _).
      simpl. split; [discriminate|]. now rewrite of_f32_isnan.
    + injection Hframe as <-. now apply Hsample.
  - injection Hframe as <-. now apply Hsample.
Qed.

(** C10. When the rasters load and every cell of the grid to vectorize is
    NaN, the period builds a frame with no feature, under the reference of
    the raster, and writes it; this is not the fallback collection. *)
Theorem C10_all_nan_writes_empty cfg baseline_arr p fs avg t c grid :
  load_avg_temp fs (tmin_path_of cfg p) (tmax_path_of cfg p) = Some (avg, t, c) ->
  compute_change avg baseline_arr = Returns grid ->
  (forall i j x, cell grid i j = Some x -> F32.isnan x = true) ->
  (forall i j, mask_at (not_isnan grid) i j = false) /\
  vectorize grid t = [] /\
  process_period cfg baseline_arr p fs
  = (<[out_path_of cfg p := GeoJSONFile (from_features [] c)]> fs, Returns tt) /\
  from_features [] c <> sample_frame (p.1.1).
Proof.
  intros Hload Hchange Hnan.
  assert (Hmask : forall i j, mask_at (not_isnan grid) i j = false).
  { intros i j. destruct (mask_at (not_isnan grid) i j) eqn:E; [|reflexivity].
    apply mask_at_not_isnan in E as (x & Hx & Hx').
    rewrite (Hnan i j x Hx) in Hx'. discriminate Hx'. }
  assert (Hvec : vectorize grid t = []).
  { unfold vectorize. now rewrite shapes_nil. }
  split; [exact Hmask|]. split; [exact Hvec|]. split.
  - apply process_period_frame.
    rewrite (period_frame_loaded _ _ _ _ _ _ _ Hload), Hchange. simpl.
    now rewrite Hvec.
  - unfold from_features, sample_frame. intros H. inversion H.
Qed.


(** ** The 4x4 scenario *)

Lemma example_same_grid i j : same_grid (example_min_band i j) example_max_band.
Proof.
  assert (Hrow : forall (x : float32) row, length row = 4%nat ->
                   length (<[j := x]> row) = 4%nat)
    by (intros; now rewrite length_insert).
  assert (Hlen : length (example_min_band i j) = 4%nat)
    by (unfold example_min_band; now rewrite length_insert).
  assert (Hrows : Forall (fun row => length row = 4%nat) (example_min_band i j)).
  { unfold example_min_band. apply Forall_insert; [repeat constructor|].
    now apply Hrow. }
  assert (Hshape : shape (example_min_band i j) = (4%nat, 4%nat)).
  { unfold shape. rewrite Hlen. f_equal.
    destruct (example_min_band i j) as [|r rs]; [discriminate Hlen|].
    simpl. now inversion Hrows. }
  repeat split.
  - unfold rectangular. now rewrite Hshape.
  - repeat constructor.
  - now rewrite Hshape.
Qed.

Ltac example_cells i j t :=
  let fts := eval vm_compute in (vectorize (example_derived i j) t) in
  match fts with
  | [ {| change := _; geometry := Some (PixelRegion ?cs _) |} ] => exists cs
  end.

(** C7. In the 4x4 scenario, wherever the nodata cell [(i, j)] lies, the
    loader returns 15.0 at every cell but NaN at [(i, j)]; with no baseline
    the period's frame has exactly one feature, with [change] 15.0 and a
    polygon over 15 pixels: every pixel of the grid but [(i, j)]. *)
Theorem C7_example_4x4 (i j : nat) cfg p fs t c rmax :
  (i < 4)%nat -> (j < 4)%nat ->
  fs !! tmin_path_of cfg p
  = Some (RasterFile {| band1 := example_min_band i j;
                        nodata := Some (F32.of_Z (-9999));
                        transform := t; crs := c |}) ->
  fs !! tmax_path_of cfg p = Some (RasterFile rmax) ->
  band1 rmax = example_max_band ->
  load_avg_temp fs (tmin_path_of cfg p) (tmax_path_of cfg p)
  = Some (example_derived i j, t, c) /\
  exists cells,
    period_frame cfg None p fs
    = Returns {| features := [ {| change := F64.dec 150 1;
                                  geometry := Some (PixelRegion cells t) |} ];
                 gdf_crs := c |} /\
    length cells = 15%nat /\
    Forall (fun ab => ab ∈ cells <-> ab <> (i, j)) (grid_cells 4 4).
Proof.
  intros Hi Hj Hmin Hmax Hband.
  assert (Hload : load_avg_temp fs (tmin_path_of cfg p) (tmax_path_of cfg p)
                  = Some (example_derived i j, t, c)).
  { rewrite (load_avg_temp_readable _ _ _ _ _ Hmin Hmax);
      [|simpl; rewrite Hband; apply example_same_grid].
    simpl. rewrite Hband. do 2 f_equal.
    do 4 (destruct i as [|i]; [do 4 (destruct j as [|j]; [vm_compute; reflexivity|]); lia|]).
    lia. }
  split; [exact Hload|].
  rewrite (period_frame_loaded _ _ _ _ _ _ _ Hload). simpl. unfold from_features.
  do 4 (destruct i as [|i];
        [do 4 (destruct j as [|j];
               [match goal with
                | |- context [example_derived ?a ?b] => example_cells a b t
                end;
                split; [vm_compute; reflexivity|];
                split; [reflexivity|];
                apply (bool_decide_unpack _); vm_compute; exact I|]); lia|]).
  lia.
Qed.


(** ** The whole run *)

Lemma period_frame_ext cfg baseline_arr p (fsA fsB : FS) :
  fsA !! tmin_path_of cfg p = fsB !! tmin_path_of cfg p ->
  fsA !! tmax_path_of cfg p = fsB !! tmax_path_of cfg p ->
  period_frame cfg baseline_arr p fsA = period_frame cfg baseline_arr p fsB.
Proof.
  intros Hmin Hmax.
  unfold period_frame, path_exists, load_avg_temp, load_avg_temp_try, rasterio_open.
  now rewrite Hmin, Hmax.
Qed.

Lemma period_frame_no_baseline cfg p fs :
  exists gdf, period_frame cfg None p fs = Returns gdf.
Proof.
  unfold period_frame. destruct (_ && _); [|eauto].
  destruct (load_avg_temp _ _ _) as [[[avg t] c]|]; simpl; eauto.
Qed.

Lemma for_each_frame_rule cfg baseline_arr ps : forall (fs : FS) x,
  x ∉ map (out_path_of cfg) ps ->
  (for_each (process_period cfg baseline_arr) ps fs).1 !! x = fs !! x.
Proof.
  induction ps as [|p ps IH]; intros fs x Hx; [reflexivity|].
  simpl in *. apply not_elem_of_cons in Hx as [Hne Hx].
  unfold io_bind, process_period at 1, io_bind, io_lift, to_file.
  destruct (period_frame cfg baseline_arr p fs) as [gdf|e]; simpl; [|reflexivity].
  rewrite IH by exact Hx. now apply lookup_insert_ne.
Qed.

Lemma for_each_keeps_collections cfg baseline_arr ps : forall (fs : FS) x g,
  fs !! x = Some (GeoJSONFile g) ->
  exists g',
    (for_each (process_period cfg baseline_arr) ps fs).1 !! x
    = Some (GeoJSONFile g').
Proof.
  induction ps as [|p ps IH]; intros fs x g Hx; [simpl; eauto|].
  simpl. unfold io_bind, process_period at 1, io_bind, io_lift, to_file.
  destruct (period_frame cfg baseline_arr p fs) as [gdf|e]; simpl; [|eauto].
  destruct (decide (out_path_of cfg p = x)) as [<-|Hne].
  - eapply IH. apply lookup_insert_eq.
  - eapply IH. rewrite lookup_insert_ne by exact Hne. exact Hx.
Qed.

(** Two runs of the loop from file systems that agree on a set of paths
    holding the inputs: without a baseline both complete, and the file
    systems they leave agree on that set and on every output path. *)
Lemma for_each_agree cfg ps : forall (S : string -> Prop) (fsA fsB : FS),
  (forall x, S x -> fsA !! x = fsB !! x) ->
  (forall p, p ∈ ps -> S (tmin_path_of cfg p) /\ S (tmax_path_of cfg p)) ->
  (for_each (process_period cfg None) ps fsA).2 = Returns tt /\
  (for_each (process_period cfg None) ps fsB).2 = Returns tt /\
  (forall x, S x \/ x ∈ map (out_path_of cfg) ps ->
     (for_each (process_period cfg None) ps fsA).1 !! x
     = (for_each (process_period cfg None) ps fsB).1 !! x) /\
  (forall x, x ∈ map (out_path_of cfg) ps ->
     exists g, (for_each (process_period cfg None) ps fsA).1 !! x
               = Some (GeoJSONFile g)).
Proof.
  induction ps as [|p ps IH]; intros S fsA fsB Hagree Hin.
  - simpl. repeat split; try reflexivity.
    + intros x [Hx|Hx]; [now apply Hagree | inversion Hx].
    + intros x Hx. inversion Hx.
  - destruct (Hin p) as [Hmin Hmax]; [left|].
    pose proof (period_frame_ext cfg None p fsA fsB
                  (Hagree _ Hmin) (Hagree _ Hmax)) as Hext.
    destruct (period_frame_no_baseline cfg p fsA) as [gdf Hgdf].
    simpl. unfold io_bind.
    rewrite (process_period_frame cfg None p fsA gdf Hgdf).
    rewrite (process_period_frame cfg None p fsB gdf) by (now rewrite <- Hext).
    set (o := out_path_of cfg p).
    destruct (IH (fun x => S x \/ x = o)
                 (<[o := GeoJSONFile gdf]> fsA) (<[o := GeoJSONFile gdf]> fsB))
      as (HA & HB & Hsame & Hsome).
    + intros x [Hx| ->].
      * rewrite !lookup_insert. case_decide; [reflexivity|now apply Hagree].
      * now rewrite !lookup_insert_eq.
    + intros q Hq. destruct (Hin q) as [H1 H2]; [now right|]. auto.
    + split; [exact HA|]. split; [exact HB|]. split.
      * intros x [Hx|Hx]; [apply Hsame; auto|].
        apply elem_of_cons in Hx as [->|Hx]; apply Hsame; auto.
      * intros x Hx. apply elem_of_cons in Hx as [->|Hx]; [|now apply Hsome].
        eapply for_each_keeps_collections. apply lookup_insert_eq.
Qed.

Lemma load_baseline_none cfg fs :
  BASELINE_PERIOD cfg = None -> load_baseline cfg fs = None.
Proof. unfold load_baseline. now intros ->. Qed.

Lemma makedirs_fs name (fs : FS) : (makedirs name fs).1 = fs.
Proof.
  unfold makedirs. destruct (bool_decide _); [reflexivity|].
  now destruct (existsb _ _).
Qed.

Lemma main_after_makedirs cfg (fs : FS) :
  (makedirs (OUTPUT_DIR cfg) fs).2 = Returns tt ->
  main cfg fs = process_periods cfg fs.
Proof.
  intros H. unfold main, io_bind.
  pose proof (makedirs_fs (OUTPUT_DIR cfg) fs) as Hfs.
  destruct (makedirs (OUTPUT_DIR cfg) fs) as [fs' [[]|e]]; simpl in *;
    [now subst | discriminate H].
Qed.

Lemma main_makedirs_raises cfg (fs : FS) e :
  (makedirs (OUTPUT_DIR cfg) fs).2 = Raises e -> main cfg fs = (fs, Raises e).
Proof.
  intros H. unfold main, io_bind.
  pose proof (makedirs_fs (OUTPUT_DIR cfg) fs) as Hfs.
  destruct (makedirs (OUTPUT_DIR cfg) fs) as [fs' [[]|e']]; simpl in *;
    [discriminate H | injection H as ->; now subst].
Qed.

Lemma makedirs_outcome name (fs : FS) :
  (makedirs name fs).2 = Returns tt \/ (makedirs name fs).2 = Raises OSError.
Proof.
  unfold makedirs. destruct (bool_decide _); [now right|].
  destruct (existsb _ _); [now right | now left].
Qed.

(** [os.makedirs] returns exactly when the name is not empty and no file
    sits at the name or at one of its parents. *)
Lemma makedirs_returns_iff name (fs : FS) :
  (makedirs name fs).2 = Returns tt <->
  name <> "" /\ forall k, k ∈ dir_keys name -> fs !! k = None.
Proof.
  unfold makedirs. destruct (bool_decide_reflect (name = "")) as [->|Hne].
  - simpl. split; [discriminate | now intros [H _]].
  - destruct (existsb (path_exists fs) (dir_keys name)) eqn:E; simpl.
    + split; [discriminate|]. intros [_ H].
      apply existsb_exists in E as (k & Hk & Hex).
      apply list_elem_of_In in Hk. unfold path_exists in Hex.
      now rewrite (H k Hk) in Hex.
    + split; [|reflexivity]. intros _. split; [exact Hne|]. intros k Hk.
      destruct (fs !! k) as [f|] eqn:Hf; [|reflexivity].
      assert (Hex : existsb (path_exists fs) (dir_keys name) = true).
      { apply existsb_exists. exists k. split; [now apply list_elem_of_In|].
        unfold path_exists. now rewrite Hf. }
      congruence.
Qed.

(** A run that completes got past [os.makedirs]. *)
Lemma main_returns cfg (fs : FS) :
  (main cfg fs).2 = Returns tt -> main cfg fs = process_periods cfg fs.
Proof.
  intros H. destruct (makedirs_outcome (OUTPUT_DIR cfg) fs) as [Hm|Hm].
  - now apply main_after_makedirs.
  - rewrite (main_makedirs_raises cfg fs _ Hm) in H. discriminate H.
Qed.

(** C8. Two runs without a baseline, from file systems that hold the same
    input files and in which the output directory exists or can be made
    (the labels holding no "/"), both complete and leave, for every period,
    the same feature collection in its output file - whatever else the two
    file systems hold, for instance the output of an earlier run. *)
Theorem C8_deterministic cfg (fsA fsB : FS) :
  BASELINE_PERIOD cfg = None ->
  (forall p, p ∈ PERIODS cfg ->
     fsA !! tmin_path_of cfg p = fsB !! tmin_path_of cfg p /\
     fsA !! tmax_path_of cfg p = fsB !! tmax_path_of cfg p) ->
  (makedirs (OUTPUT_DIR cfg) fsA).2 = Returns tt ->
  (makedirs (OUTPUT_DIR cfg) fsB).2 = Returns tt ->
  plain_labels cfg ->
  (main cfg fsA).2 = Returns tt /\
  (main cfg fsB).2 = Returns tt /\
  forall p, p ∈ PERIODS cfg ->
    (main cfg fsA).1 !! out_path_of cfg p = (main cfg fsB).1 !! out_path_of cfg p /\
    exists gdf, (main cfg fsA).1 !! out_path_of cfg p = Some (GeoJSONFile gdf).
Proof.
  intros Hbase Hin HdirA HdirB _.
  rewrite (main_after_makedirs cfg fsA HdirA), (main_after_makedirs cfg fsB HdirB).
  unfold process_periods. rewrite !load_baseline_none by exact Hbase.
  destruct (for_each_agree cfg (PERIODS cfg)
              (fun x => fsA !! x = fsB !! x) fsA fsB)
    as (HA & HB & Hsame & Hsome); [auto | exact Hin |].
  split; [exact HA|]. split; [exact HB|].
  intros p Hp.
  assert (Ho : out_path_of cfg p ∈ map (out_path_of cfg) (PERIODS cfg))
    by (apply list_elem_of_fmap; eauto).
  split; [apply Hsame; now right | now apply Hsome].
Qed.


(** When the outputs are separate from the inputs and from each other, a
    run that completes leaves in each period's output file the frame built
    from the file system as it was at the start. *)
Lemma for_each_writes cfg baseline_arr ps : forall fs : FS,
  NoDup (map (out_path_of cfg) ps) ->
  (forall p q, p ∈ ps -> q ∈ ps ->
     out_path_of cfg p <> tmin_path_of cfg q /\
     out_path_of cfg p <> tmax_path_of cfg q) ->
  (for_each (process_period cfg baseline_arr) ps fs).2 = Returns tt ->
  forall q, q ∈ ps ->
    exists gdf,
      period_frame cfg baseline_arr q fs = Returns gdf /\
      (for_each (process_period cfg baseline_arr) ps fs).1 !! out_path_of cfg q
      = Some (GeoJSONFile gdf).
Proof.
  induction ps as [|p ps IH]; intros fs Hnd Hsep Hret q Hq; [inversion Hq|].
  simpl in Hnd. apply NoDup_cons in Hnd as [Hfresh Hnd].
  simpl in *. unfold io_bind in *.
  destruct (period_frame cfg baseline_arr p fs) as [gdf|e] eqn:Hp.
  - rewrite (process_period_frame _ _ _ _ _ Hp) in *.
    apply elem_of_cons in Hq as [->|Hq].
    + exists gdf. split; [exact Hp|].
      rewrite for_each_frame_rule by exact Hfresh. apply lookup_insert_eq.
    + destruct (IH (<[out_path_of cfg p := GeoJSONFile gdf]> fs)) with (q := q)
        as (g & Hg & Hfile); try assumption.
      * intros p' q' Hp' Hq'. apply Hsep; now right.
      * exists g. split; [|exact Hfile]. rewrite <- Hg.
        destruct (Hsep p q) as [H1 H2]; [left | now right |].
        apply period_frame_ext; symmetry; now apply lookup_insert_ne.
  - unfold process_period, io_bind, io_lift in Hret. rewrite Hp in Hret.
    discriminate Hret.
Qed.

Lemma paths_separate_spec cfg :
  paths_separate cfg ->
  NoDup (map (out_path_of cfg) (PERIODS cfg)) /\
  forall p q, p ∈ PERIODS cfg -> q ∈ PERIODS cfg ->
    out_path_of cfg p <> tmin_path_of cfg q /\
    out_path_of cfg p <> tmax_path_of cfg q.
Proof.
  intros [Hnd Hsep]. split; [exact Hnd|].
  intros p q Hp Hq. rewrite Forall_forall in Hsep.
  assert (Ho : out_path_of cfg p ∉ input_paths cfg).
  { apply Hsep. unfold output_paths. apply list_elem_of_fmap. eauto. }
  unfold input_paths in Ho.
  split; intros E; apply Ho; rewrite E;
    apply list_elem_of_In, in_flat_map; exists q;
    (split; [now apply list_elem_of_In | simpl; auto]).
Qed.

Lemma vectorize_not_sample grid t c label :
  from_features (vectorize grid t) c <> sample_frame label.
Proof.
  unfold from_features, sample_frame. intros [= H _].
  destruct (vectorize grid t) as [|ft fts] eqn:E; [discriminate H|].
  assert (Hft : ft ∈ vectorize grid t) by (rewrite E; left).
  apply elem_of_vectorize in Hft as (cells & v & -> & _).
  discriminate H.
Qed.

(** C9. With a baseline period configured whose load is not attempted (no
    period has both of its files) or fails, the baseline stays absent and
    the run, once the output directory exists or has been made (the labels
    holding no "/"), completes; every period whose own rasters load writes
    the features of its derived grid, which is neither a difference nor the
    fallback collection. *)
Theorem C9_baseline_failure cfg fs b :
  BASELINE_PERIOD cfg = Some b ->
  tiff_files_exist cfg fs = false \/
  load_avg_temp fs (path_join (DATA_DIR cfg) (b.1.2))
                   (path_join (DATA_DIR cfg) (b.2)) = None ->
  (makedirs (OUTPUT_DIR cfg) fs).2 = Returns tt ->
  plain_labels cfg ->
  load_baseline cfg fs = None /\
  (main cfg fs).2 = Returns tt /\
  (forall p fs' avg t c,
     load_avg_temp fs' (tmin_path_of cfg p) (tmax_path_of cfg p) = Some (avg, t, c) ->
     process_period cfg (load_baseline cfg fs) p fs'
     = (<[out_path_of cfg p := GeoJSONFile (from_features (vectorize avg t) c)]> fs',
        Returns tt) /\
     from_features (vectorize avg t) c <> sample_frame (p.1.1)) /\
  (paths_separate cfg ->
   forall p avg t c,
     p ∈ PERIODS cfg ->
     load_avg_temp fs (tmin_path_of cfg p) (tmax_path_of cfg p) = Some (avg, t, c) ->
     (main cfg fs).1 !! out_path_of cfg p
     = Some (GeoJSONFile (from_features (vectorize avg t) c))).
Proof.
  intros Hb Hfail Hdir _.
  assert (Hnone : load_baseline cfg fs = None).
  { unfold load_baseline. rewrite Hb.
    destruct Hfail as [-> | ->]; [reflexivity|]. now destruct (tiff_files_exist cfg fs). }
  rewrite (main_after_makedirs cfg fs Hdir).
  assert (Hret : (process_periods cfg fs).2 = Returns tt).
  { unfold process_periods. rewrite Hnone.
    now destruct (for_each_agree cfg (PERIODS cfg) (fun _ => True) fs fs) as (H & _). }
  split; [exact Hnone|]. split; [exact Hret|]. split.
  - intros p fs' avg t c Hload. rewrite Hnone. split.
    + apply process_period_frame. now rewrite (period_frame_loaded _ _ _ _ _ _ _ Hload).
    + apply vectorize_not_sample.
  - intros Hsep p avg t c Hp Hload.
    apply paths_separate_spec in Hsep as [Hnd Hsep].
    unfold process_periods in *. rewrite Hnone in *.
    destruct (for_each_writes cfg None (PERIODS cfg) fs Hnd Hsep Hret p Hp)
      as (gdf & Hgdf & Hfile).
    rewrite Hfile. rewrite (period_frame_loaded _ _ _ _ _ _ _ Hload) in Hgdf.
    simpl in Hgdf. now injection Hgdf as <-.
Qed.


(** ** The properties at concrete inputs *)

Ltac by_computation := vm_compute; reflexivity.

(** C6 does not hold with "finite": from finite rasters the script builds
    a feature whose [change] is minus infinity. The sum of the two bands
    overflows binary32, and [~isnan] keeps the cell. *)
Lemma C6_counterexample_infinite_change :
  (main script_config fs_overflow).1 !! out_path_of script_config period_2021
  = Some (GeoJSONFile
            {| features := [ {| change := S754_infinity true;
                                geometry := Some (PixelRegion [(0, 0)%nat] north_up) |} ];
               gdf_crs := wgs84 |}) /\
  F64.isfinite (S754_infinity true) = false.
Proof. split; by_computation. Qed.

(** C1 on the rasters of the 4x4 scenario. *)
Lemma C1_witness :
  fs_scenario !! tmin_2021 = Some (RasterFile scenario_min) /\
  fs_scenario !! tmax_2021 = Some (RasterFile scenario_max) /\
  same_grid (band1 scenario_min) (band1 scenario_max) /\
  exists avg,
    load_avg_temp fs_scenario tmin_2021 tmax_2021 = Some (avg, north_up, wgs84) /\
    shape avg = (4%nat, 4%nat) /\
    cell avg 0 0 = Some (F32.of_Z 15).
Proof.
  assert (H1 : fs_scenario !! tmin_2021 = Some (RasterFile scenario_min))
    by by_computation.
  assert (H2 : fs_scenario !! tmax_2021 = Some (RasterFile scenario_max))
    by by_computation.
  assert (H3 : same_grid (band1 scenario_min) (band1 scenario_max))
    by (unfold same_grid, rectangular; repeat split; repeat constructor).
  split; [exact H1|]. split; [exact H2|]. split; [exact H3|].
  destruct (C1_load_avg_temp_mean fs_scenario tmin_2021 tmax_2021
              scenario_min scenario_max H1 H2 H3)
    as (avg & Hload & Hshape & Hcell & _).
  exists avg. split; [exact Hload|]. split; [exact Hshape|].
  rewrite (Hcell 0%nat 0%nat (F32.of_Z 100) (F32.of_Z 200)); by_computation.
Defined.

(** C2 on the scenario, with and without a baseline grid. *)
Lemma C2_witness :
  load_avg_temp fs_scenario tmin_2021 tmax_2021
  = Some (example_derived 1 2, north_up, wgs84) /\
  period_frame script_config None period_2021 fs_scenario
  = Returns (from_features (vectorize (example_derived 1 2) north_up) wgs84) /\
  exists grid,
    compute_change (example_derived 1 2) (Some (example_derived 0 0)) = Returns grid /\
    cell grid 3 3 = Some (S754_zero false) /\
    cell grid 0 0 = Some F32.nan /\
    cell grid 1 2 = Some F32.nan.
Proof.
  assert (H1 : load_avg_temp fs_scenario tmin_2021 tmax_2021
               = Some (example_derived 1 2, north_up, wgs84)) by by_computation.
  split; [exact H1|].
  destruct (C2_change_grid script_config period_2021 fs_scenario
              (example_derived 1 2) north_up wgs84 H1) as [[Hnone _] Hsome].
  split; [exact Hnone|].
  destruct (Hsome (example_derived 0 0)) as (grid & Hgrid & _ & _ & Hcell).
  { unfold same_grid, rectangular. repeat split; repeat constructor. }
  exists grid. split; [exact Hgrid|]. split; [|split].
  - now destruct (Hcell 3%nat 3%nat (F32.of_Z 15) (F32.of_Z 15) eq_refl eq_refl).
  - destruct (Hcell 0%nat 0%nat (F32.of_Z 15) F32.nan eq_refl eq_refl) as [_ H].
    apply H. now right.
  - destruct (Hcell 1%nat 2%nat F32.nan (F32.of_Z 15) eq_refl eq_refl) as [_ H].
    apply H. now left.
Defined.

(** C3 at the nodata cell of the scenario, row 1, column 2. *)
Lemma C3_witness :
  fs_scenario !! tmin_2021 = Some (RasterFile scenario_min) /\
  fs_scenario !! tmax_2021 = Some (RasterFile scenario_max) /\
  same_grid (band1 scenario_min) (band1 scenario_max) /\
  nodata scenario_min = Some sentinel /\
  cell (band1 scenario_min) 1 2 = Some sentinel /\
  cell (band1 scenario_max) 1 2 = Some (F32.of_Z 200) /\
  F32.eqb sentinel sentinel = true /\
  exists avg,
    load_avg_temp fs_scenario tmin_2021 tmax_2021 = Some (avg, north_up, wgs84) /\
    cell avg 1 2 = Some F32.nan /\
    exists grid,
      compute_change avg None = Returns grid /\
      mask_at (not_isnan grid) 1 2 = false.
Proof.
  assert (H1 : fs_scenario !! tmin_2021 = Some (RasterFile scenario_min))
    by by_computation.
  assert (H2 : fs_scenario !! tmax_2021 = Some (RasterFile scenario_max))
    by by_computation.
  assert (H3 : same_grid (band1 scenario_min) (band1 scenario_max))
    by (unfold same_grid, rectangular; repeat split; repeat constructor).
  assert (H4 : F32.eqb sentinel sentinel = true) by by_computation.
  repeat (split; [first [assumption | reflexivity]|]).
  destruct (C3_nodata_masked fs_scenario tmin_2021 tmax_2021
              scenario_min scenario_max sentinel 1 2 sentinel (F32.of_Z 200)
              H1 H2 H3 eq_refl eq_refl eq_refl (or_introl H4))
    as (_ & _ & avg & Hload & Hcell & Hmask).
  exists avg. split; [exact Hload|]. split; [exact Hcell|].
  destruct (Hmask None) as (grid & Hgrid & _ & Hm & _); [discriminate|].
  exists grid. split; [exact Hgrid | exact Hm].
Defined.

(** C4 for the second period, whose files are absent. *)
Lemma C4_witness :
  fs_scenario !! tmin_path_of script_config period_2041 = None /\
  exists gdf,
    process_period script_config None period_2041 fs_scenario
    = (<["../../public/data/avg_temp_change_2041-2060.json" := GeoJSONFile gdf]>
         fs_scenario, Returns tt) /\
    length (features gdf) = 15%nat.
Proof.
  assert (H1 : fs_scenario !! tmin_path_of script_config period_2041 = None)
    by by_computation.
  split; [exact H1|].
  destruct (C4_missing_inputs_fallback script_config None period_2041 fs_scenario
              (or_introl H1)) as (gdf & Hstep & _ & Hlen & _).
  exists gdf. split; [exact Hstep | exact Hlen].
Defined.


(** C6 (as amended) on the scenario. *)
Lemma C6_witness :
  period_frame script_config None period_2021 fs_scenario
  = Returns (from_features (vectorize (example_derived 1 2) north_up) wgs84) /\
  forall ft, ft ∈ vectorize (example_derived 1 2) north_up ->
    geometry ft <> None /\ F64.isnan (change ft) = false.
Proof.
  assert (H1 : period_frame script_config None period_2021 fs_scenario
               = Returns (from_features (vectorize (example_derived 1 2) north_up) wgs84))
    by by_computation.
  split; [exact H1|]. intros ft Hft.
  destruct (C6_features_not_nan script_config None period_2021 fs_scenario _ H1 ft Hft)
    as (Hg & Hnan & _).
  split; [exact Hg | exact Hnan].
Defined.

(** C7 with the nodata cell at row 1, column 2. *)
Lemma C7_witness :
  load_avg_temp fs_scenario tmin_2021 tmax_2021
  = Some (example_derived 1 2, north_up, wgs84) /\
  exists cells,
    period_frame script_config None period_2021 fs_scenario
    = Returns {| features := [ {| change := F64.dec 150 1;
                                  geometry := Some (PixelRegion cells north_up) |} ];
                 gdf_crs := wgs84 |} /\
    length cells = 15%nat /\
    Forall (fun ab => ab ∈ cells <-> ab <> (1, 2)%nat) (grid_cells 4 4).
Proof.
  apply (C7_example_4x4 1 2 script_config period_2021 fs_scenario
           north_up wgs84 scenario_max).
  - lia.
  - lia.
  - by_computation.
  - by_computation.
  - reflexivity.
Defined.

(** C8 for a first run and a run over its leftovers. *)
Lemma C8_witness :
  (makedirs (OUTPUT_DIR script_config) fs_scenario).2 = Returns tt /\
  (makedirs (OUTPUT_DIR script_config) fs_scenario_rerun).2 = Returns tt /\
  plain_labels script_config /\
  (main script_config fs_scenario).2 = Returns tt /\
  (main script_config fs_scenario_rerun).2 = Returns tt /\
  (main script_config fs_scenario).1 !! out_path_of script_config period_2021
  = (main script_config fs_scenario_rerun).1 !! out_path_of script_config period_2021.
Proof.
  assert (HdA : (makedirs (OUTPUT_DIR script_config) fs_scenario).2 = Returns tt)
    by by_computation.
  assert (HdB : (makedirs (OUTPUT_DIR script_config) fs_scenario_rerun).2 = Returns tt)
    by by_computation.
  assert (Hl : plain_labels script_config)
    by (unfold plain_labels; simpl; repeat constructor).
  split; [exact HdA|]. split; [exact HdB|]. split; [exact Hl|].
  destruct (C8_deterministic script_config fs_scenario fs_scenario_rerun)
    as (HA & HB & Hsame).
  - reflexivity.
  - intros p Hp. simpl in Hp.
    repeat (apply elem_of_cons in Hp as [->|Hp]; [split; by_computation|]).
    inversion Hp.
  - exact HdA.
  - exact HdB.
  - exact Hl.
  - split; [exact HA|]. split; [exact HB|].
    apply Hsame. left.
Defined.

(** C9 for a baseline period whose files are absent. *)
Lemma C9_witness :
  BASELINE_PERIOD config_with_baseline = Some baseline_1970 /\
  load_avg_temp fs_scenario
    (path_join (DATA_DIR config_with_baseline) (baseline_1970.1.2))
    (path_join (DATA_DIR config_with_baseline) (baseline_1970.2)) = None /\
  (makedirs (OUTPUT_DIR config_with_baseline) fs_scenario).2 = Returns tt /\
  plain_labels config_with_baseline /\
  load_baseline config_with_baseline fs_scenario = None /\
  (main config_with_baseline fs_scenario).2 = Returns tt /\
  (main config_with_baseline fs_scenario).1
    !! out_path_of config_with_baseline period_2021
  = Some (GeoJSONFile (from_features (vectorize (example_derived 1 2) north_up) wgs84)).
Proof.
  assert (H1 : load_avg_temp fs_scenario
                 (path_join (DATA_DIR config_with_baseline) (baseline_1970.1.2))
                 (path_join (DATA_DIR config_with_baseline) (baseline_1970.2)) = None)
    by by_computation.
  assert (H2 : (makedirs (OUTPUT_DIR config_with_baseline) fs_scenario).2 = Returns tt)
    by by_computation.
  assert (H3 : plain_labels config_with_baseline)
    by (unfold plain_labels; simpl; repeat constructor).
  split; [reflexivity|]. split; [exact H1|]. split; [exact H2|]. split; [exact H3|].
  destruct (C9_baseline_failure config_with_baseline fs_scenario baseline_1970
              eq_refl (or_intror H1) H2 H3) as (Hnone & Hret & _ & Hfile).
  split; [exact Hnone|]. split; [exact Hret|].
  apply Hfile.
  - apply (bool_decide_unpack _). vm_compute. exact I.
  - left.
  - by_computation.
Defined.

(** C10 for rasters that hold the sentinel only. *)
Lemma C10_witness :
  load_avg_temp fs_all_nodata tmin_2021 tmax_2021
  = Some ([[F32.nan]], north_up, wgs84) /\
  compute_change [[F32.nan]] None = Returns [[F32.nan]] /\
  vectorize [[F32.nan]] north_up = [] /\
  process_period script_config None period_2021 fs_all_nodata
  = (<[out_path_of script_config period_2021 := GeoJSONFile (from_features [] wgs84)]>
       fs_all_nodata, Returns tt).
Proof.
  assert (H1 : load_avg_temp fs_all_nodata tmin_2021 tmax_2021
               = Some ([[F32.nan]], north_up, wgs84)) by by_computation.
  split; [exact H1|]. split; [reflexivity|].
  destruct (C10_all_nan_writes_empty script_config None period_2021 fs_all_nodata
              [[F32.nan]] north_up wgs84 [[F32.nan]] H1 eq_refl)
    as (_ & Hvec & Hstep & _).
  - intros [|i] [|j] x H; vm_compute in H;
      first [discriminate H | injection H as <-; reflexivity].
  - split; [exact Hvec | exact Hstep].
Defined.

(** ** Further facts about the model *)

(** A grid with a cell that is not NaN yields at least one feature. *)
Lemma vectorize_nonempty grid t i j x :
  cell grid i j = Some x -> F32.isnan x = false -> vectorize grid t <> [].
Proof.
  intros Hx Hnan Hnil.
  assert (Hin : (i, j, x) ∈ valid_cells grid (not_isnan grid)).
  { apply valid_cells_spec. split; [|exact Hx]. apply mask_at_not_isnan. eauto. }
  apply regions_of_covers in Hin as (r & Hr & _).
  unfold vectorize, shapes in Hnil.
  apply (f_equal (@length Feature)) in Hnil. rewrite !length_map in Hnil.
  destruct (regions_of _); [inversion Hr | discriminate Hnil].
Qed.

Lemma process_periods_idempotent cfg (fs : FS) :
  BASELINE_PERIOD cfg = None ->
  Forall (fun o => o ∉ input_paths cfg) (output_paths cfg) ->
  (process_periods cfg (process_periods cfg fs).1).1 = (process_periods cfg fs).1.
Proof.
  intros Hbase Hsep. unfold process_periods.
  rewrite !load_baseline_none by exact Hbase.
  set (fs1 := (for_each (process_period cfg None) (PERIODS cfg) fs).1).
  assert (Hinputs : forall p, p ∈ PERIODS cfg ->
            (tmin_path_of cfg p ∉ map (out_path_of cfg) (PERIODS cfg)) /\
            (tmax_path_of cfg p ∉ map (out_path_of cfg) (PERIODS cfg))).
  { intros p Hp. rewrite Forall_forall in Hsep.
    split; intros Hin; apply (Hsep _ Hin); unfold input_paths;
      apply list_elem_of_In, in_flat_map; exists p;
      (split; [now apply list_elem_of_In | simpl; auto]). }
  destruct (for_each_agree cfg (PERIODS cfg)
              (fun x => x ∉ map (out_path_of cfg) (PERIODS cfg)) fs fs1)
    as (_ & _ & Hsame & _).
  - intros x Hx. symmetry. now apply for_each_frame_rule.
  - exact Hinputs.
  - apply map_eq. intros x. symmetry.
    destruct (decide (x ∈ map (out_path_of cfg) (PERIODS cfg))) as [Hx|Hx].
    + apply Hsame. now right.
    + rewrite (for_each_frame_rule cfg None (PERIODS cfg) fs1 x Hx).
      reflexivity.
Qed.

(** X8. Running [main] again on the file system it left changes nothing, when
    no output file is an input and no baseline is configured. *)
Lemma main_idempotent cfg (fs : FS) :
  BASELINE_PERIOD cfg = None ->
  Forall (fun o => o ∉ input_paths cfg) (output_paths cfg) ->
  (main cfg (main cfg fs).1).1 = (main cfg fs).1.
Proof.
  intros Hbase Hsep.
  destruct (makedirs_outcome (OUTPUT_DIR cfg) fs) as [Hm|Hm].
  - rewrite (main_after_makedirs cfg fs Hm).
    destruct (makedirs_outcome (OUTPUT_DIR cfg) (process_periods cfg fs).1)
      as [Hm'|Hm'].
    + rewrite (main_after_makedirs cfg _ Hm').
      now apply process_periods_idempotent.
    + now rewrite (main_makedirs_raises cfg _ _ Hm').
  - rewrite !(main_makedirs_raises cfg fs _ Hm). simpl.
    now rewrite (main_makedirs_raises cfg fs _ Hm).
Qed.

Example path_join_data_dir :
  path_join "" "tmin.tif" = "tmin.tif" /\
  path_join "data" "tmin.tif" = "data/tmin.tif" /\
  path_join "data/" "tmin.tif" = "data/tmin.tif" /\
  path_join "data" "/srv/tmin.tif" = "/srv/tmin.tif".
Proof. repeat split. Qed.

Example out_path_2021 :
  out_path_of script_config period_2021
  = "../../public/data/avg_temp_change_2021-2040.json".
Proof. reflexivity. Qed.

Example script_paths_separate : paths_separate script_config.
Proof. apply (bool_decide_unpack _). vm_compute. exact I. Qed.

(** Shapes (1, 2) and (2, 1) broadcast to (2, 2); (1, 2) and (1, 3) do not. *)
Example add_broadcasts :
  Numpy.add [[F32.of_Z 1; F32.of_Z 2]] [[F32.of_Z 10]; [F32.of_Z 20]]
  = Returns [[F32.of_Z 11; F32.of_Z 12]; [F32.of_Z 21; F32.of_Z 22]] /\
  Numpy.add [[F32.of_Z 1; F32.of_Z 2]] [[F32.of_Z 1; F32.of_Z 2; F32.of_Z 3]]
  = Raises ValueError.
Proof. split; vm_compute; reflexivity. Qed.

(** Bands whose shapes do not broadcast: the [ValueError] of the sum is
    caught by the loader. *)
Example load_shape_mismatch :
  load_avg_temp
    {[ "tmin.tif" := RasterFile (raster_of [[F32.of_Z 1; F32.of_Z 2]] None);
       "tmax.tif" := RasterFile (raster_of [[F32.of_Z 1; F32.of_Z 2; F32.of_Z 3]] None) ]}
    "tmin.tif" "tmax.tif" = None.
Proof. vm_compute; reflexivity. Qed.

(** Equal values that meet only at a corner are separate regions; equal
    values that share an edge are one region, also when two regions met so
    far turn out to be connected. *)
Example shapes_connectivity :
  map snd (shapes [[F32.of_Z 1; F32.of_Z 2]; [F32.of_Z 2; F32.of_Z 1]]
                  [[true; true]; [true; true]] north_up)
  = [F32.of_Z 1; F32.of_Z 2; F32.of_Z 2; F32.of_Z 1] /\
  shapes [[F32.of_Z 1; F32.of_Z 2; F32.of_Z 1];
          [F32.of_Z 1; F32.of_Z 1; F32.of_Z 1]]
         [[true; true; true]; [true; true; true]] north_up
  = [ (PixelRegion [(0, 0); (1, 0); (1, 1); (0, 2); (1, 2)]%nat north_up, F32.of_Z 1);
      (PixelRegion [(0, 1)%nat] north_up, F32.of_Z 2) ].
Proof. split; vm_compute; reflexivity. Qed.

(** Line 101 is outside any [try]: with an empty [OUTPUT_DIR], or with a
    file where the output directory should be, the run stops there and
    leaves the file system as it was. *)
Example makedirs_aborts :
  main (with_periods {| PERIODS := []; DATA_DIR := ""; OUTPUT_DIR := "";
                        BASELINE_PERIOD := None |} (PERIODS script_config))
       fs_scenario
  = (fs_scenario, Raises OSError) /\
  main script_config
       (<["../../public" := GeoJSONFile (sample_frame "")]> fs_scenario)
  = (<["../../public" := GeoJSONFile (sample_frame "")]> fs_scenario,
     Raises OSError) /\
  dir_keys (OUTPUT_DIR script_config)
  = [".."; "../.."; "../../public"; "../../public/data"].
Proof. repeat split; vm_compute; reflexivity. Qed.

(** A baseline whose shape does not broadcast with a period's grid: the
    subtraction of line 135 raises and nothing catches it. *)
Example baseline_shape_mismatch_aborts :
  (main {| PERIODS := [("p", "tmin.tif", "tmax.tif")];
           DATA_DIR := "";
           OUTPUT_DIR := "out";
           BASELINE_PERIOD := Some ("b", "bmin.tif", "bmax.tif") |}
        {[ "tmin.tif" := RasterFile (raster_of [[F32.of_Z 1; F32.of_Z 2]] None);
           "tmax.tif" := RasterFile (raster_of [[F32.of_Z 3; F32.of_Z 4]] None);
           "bmin.tif" := RasterFile (raster_of [[F32.of_Z 1; F32.of_Z 2; F32.of_Z 3]] None);
           "bmax.tif" := RasterFile (raster_of [[F32.of_Z 1; F32.of_Z 2; F32.of_Z 3]] None) ]}).2
  = Raises ValueError.
Proof. vm_compute; reflexivity. Qed.

(** * Further properties of the script *)

(** ** The loader *)

Lemma shape_set_nan_where_eq a v : shape (set_nan_where_eq a v) = shape a.
Proof. apply shape_map2d. Qed.

Lemma ufunc2_outcome f (a b : ndarray) :
  (shapes_broadcast a b = true /\ exists g, ufunc2 f a b = Returns g) \/
  (shapes_broadcast a b = false /\ ufunc2 f a b = Raises ValueError).
Proof.
  unfold shapes_broadcast, ufunc2.
  destruct (shape a) as [ra ca], (shape b) as [rb cb]. simpl.
  destruct (broadcast_dim ra rb), (broadcast_dim ca cb); eauto.
Qed.

Lemma shapes_broadcast_masked nd (a b : ndarray) :
  shapes_broadcast (masked_band nd a) (masked_band nd b) = shapes_broadcast a b.
Proof.
  unfold shapes_broadcast. now rewrite !masked_band_map2d, !shape_map2d.
Qed.

Lemma load_avg_temp_try_rasters fs a b rmin rmax :
  fs !! a = Some (RasterFile rmin) ->
  fs !! b = Some (RasterFile rmax) ->
  load_avg_temp_try fs a b
  = bind_outcome
      (Numpy.add (masked_band (nodata rmin) (band1 rmin))
                 (masked_band (nodata rmin) (band1 rmax)))
      (fun s => Returns (divide_scalar (divide_scalar s (F32.of_Z 2)) (F32.of_Z 10),
                         transform rmin, crs rmin)).
Proof.
  intros Ha Hb. unfold load_avg_temp_try, rasterio_open. rewrite Ha, Hb. simpl.
  now destruct (nodata rmin).
Qed.

(** X1. The loader returns None exactly when one of the two paths does not
    hold a readable raster or the shapes of the two bands do not broadcast.
    In particular bands of different shapes that do broadcast are accepted. *)
Theorem load_avg_temp_None_iff fs a b :
  load_avg_temp fs a b = None <->
  no_raster_at fs a \/ no_raster_at fs b \/
  exists rmin rmax,
    fs !! a = Some (RasterFile rmin) /\ fs !! b = Some (RasterFile rmax) /\
    shapes_broadcast (band1 rmin) (band1 rmax) = false.
Proof.
  unfold no_raster_at.
  destruct (fs !! a) as [[rmin|ea|ga]|] eqn:Ha.
  2-4: (split; [intros _; left; intros r; discriminate|]; intros _;
        unfold load_avg_temp, load_avg_temp_try, rasterio_open; rewrite Ha; simpl;
        try destruct ea; reflexivity).
  destruct (fs !! b) as [[rmax|eb|gb]|] eqn:Hb.
  2-4: (split; [intros _; right; left; intros r; discriminate|]; intros _;
        unfold load_avg_temp, load_avg_temp_try, rasterio_open; rewrite Ha, Hb; simpl;
        try destruct eb; reflexivity).
  unfold load_avg_temp. rewrite (load_avg_temp_try_rasters fs a b rmin rmax Ha Hb).
  pose proof (shapes_broadcast_masked (nodata rmin) (band1 rmin) (band1 rmax)) as Hsb.
  destruct (ufunc2_outcome F32.add (masked_band (nodata rmin) (band1 rmin))
              (masked_band (nodata rmin) (band1 rmax)))
    as [[Hyes [g Hg]]|[Hno Hraise]]; rewrite Hsb in *.
  - unfold Numpy.add. rewrite Hg. simpl. split; [discriminate|].
    intros [H|[H|(r1 & r2 & [= <-] & [= <-] & H)]].
    + now destruct (H rmin).
    + now destruct (H rmax).
    + congruence.
  - unfold Numpy.add. rewrite Hraise. simpl. split; [|reflexivity].
    intros _. right. right. eauto.
Qed.

(** X2. Of the maximum-temperature raster only band 1 is used: its own
    nodata value, transform and spatial reference have no influence on what
    the loader returns. *)
Theorem load_avg_temp_ignores_tmax_metadata (fs fs' : FS) a b rmax rmax' :
  fs !! a = fs' !! a ->
  fs !! b = Some (RasterFile rmax) ->
  fs' !! b = Some (RasterFile rmax') ->
  band1 rmax = band1 rmax' ->
  load_avg_temp fs a b = load_avg_temp fs' a b.
Proof.
  intros Ha Hb Hb' Hband.
  unfold load_avg_temp, load_avg_temp_try, rasterio_open.
  rewrite <- Ha, Hb, Hb'.
  destruct (fs !! a) as [[rmin|ea|ga]|]; simpl; try reflexivity.
  now rewrite Hband.
Qed.

Lemma map2d_id_on {A} (f : A -> A) (a : list (list A)) :
  (forall i j x, cell a i j = Some x -> f x = x) -> map2d f a = a.
Proof.
  intros H. unfold map2d. apply list_eq. intros i. rewrite list_lookup_fmap.
  destruct (a !! i) as [row|] eqn:Hrow; simpl; [|reflexivity]. f_equal.
  apply list_eq. intros j. rewrite list_lookup_fmap.
  destruct (row !! j) as [x|] eqn:Hx; simpl; [|reflexivity]. f_equal.
  apply (H i j). unfold cell. now rewrite Hrow.
Qed.

Lemma eqb_nan_r x : F32.eqb x F32.nan = false.
Proof. now destruct x. Qed.

(** X3. A nodata value that no cell of either band equals (under the
    float comparison [==]) changes nothing: the loader returns what it
    returns for the same raster without a nodata declaration.  A declared
    nodata of NaN is such a value, since NaN equals nothing. *)
Theorem load_avg_temp_nodata_absent (fs fs' : FS) a b rmin rmax nd :
  fs !! a = Some (RasterFile rmin) ->
  fs !! b = Some (RasterFile rmax) ->
  fs' !! a = Some (RasterFile (without_nodata rmin)) ->
  fs' !! b = Some (RasterFile rmax) ->
  nodata rmin = Some nd ->
  (forall i j x, cell (band1 rmin) i j = Some x -> F32.eqb x nd = false) ->
  (forall i j x, cell (band1 rmax) i j = Some x -> F32.eqb x nd = false) ->
  load_avg_temp fs a b = load_avg_temp fs' a b.
Proof.
  intros Ha Hb Ha' Hb' Hnd Hmin Hmax.
  unfold load_avg_temp.
  rewrite (load_avg_temp_try_rasters fs a b rmin rmax Ha Hb).
  rewrite (load_avg_temp_try_rasters fs' a b _ rmax Ha' Hb').
  rewrite Hnd. simpl. unfold set_nan_where_eq.
  rewrite (map2d_id_on _ (band1 rmin)), (map2d_id_on _ (band1 rmax)); [reflexivity| |].
  - intros i j x Hx. now rewrite (Hmax i j x Hx).
  - intros i j x Hx. now rewrite (Hmin i j x Hx).
Qed.

(** ** Cells that are kept *)

Lemma binary_normalize_not_nan prec emax m e s :
  binary_normalize prec emax m e s <> S754_nan.
Proof.
  destruct m; simpl; [discriminate| |]; apply binary_round_not_nan.
Qed.

Lemma add_finite_not_nan x y :
  finite32 x = true -> finite32 y = true -> F32.isnan (F32.add x y) = false.
Proof.
  intros Hx Hy. destruct x as [sx|sx| |sx mx ex]; try discriminate Hx;
    destruct y as [sy|sy| |sy my ey]; try discriminate Hy; try reflexivity.
  - now destruct sx, sy.
  - unfold F32.add, SFadd.
    match goal with |- F32.isnan ?t = false =>
      pose proof (binary_normalize_not_nan F32.prec F32.emax
                    (cond_Zopp sx (Z.pos (shl_align mx ex (Z.min ex ey)).1)
                     + cond_Zopp sy (Z.pos (shl_align my ey (Z.min ex ey)).1))
                    (Z.min ex ey) false) as H
    end.
    destruct (binary_normalize _ _ _ _ _); try reflexivity. now destruct H.
Qed.

Lemma SFdiv_core_binary_nonneg prec emax m1 e1 m2 e2 :
  0 <= m1 -> 0 < m2 -> 0 <= (SFdiv_core_binary prec emax m1 e1 m2 e2).1.1.
Proof.
  intros H1 H2. unfold SFdiv_core_binary.
  set (s := _ - _ - _).
  set (m' := match s with Z.pos _ => Z.shiftl m1 s | 0 => m1 | Z.neg _ => 0 end).
  assert (Hm' : 0 <= m').
  { unfold m'. destruct s; [exact H1 | | lia]. now apply Z.shiftl_nonneg. }
  destruct (Z.div_eucl m' m2) as [q r] eqn:E. simpl.
  assert (Hq : q = m' / m2) by (unfold Z.div; now rewrite E).
  rewrite Hq. apply Z.div_pos; lia.
Qed.

Lemma div_finite_not_nan x s m e :
  F32.isnan x = false -> F32.isnan (F32.div x (S754_finite s m e)) = false.
Proof.
  intros Hx. destruct x as [sx|sx| |sx mx ex]; try discriminate Hx; try reflexivity.
  unfold F32.div, SFdiv.
  pose proof (SFdiv_core_binary_nonneg F32.prec F32.emax (Z.pos mx) ex (Z.pos m) e) as Hq.
  destruct (SFdiv_core_binary _ _ _ _ _ _) as [[mz ez] lz]. simpl in Hq.
  pose proof (binary_round_aux_not_nan F32.prec F32.emax (xorb sx s) mz ez lz) as H.
  destruct (binary_round_aux _ _ _ _ _ _); try reflexivity.
  destruct H; [lia | reflexivity].
Qed.

Lemma mean_tenths_not_nan x y :
  finite32 x = true -> finite32 y = true -> F32.isnan (mean_tenths x y) = false.
Proof.
  intros Hx Hy. unfold mean_tenths.
  assert (H2 : F32.of_Z 2 = S754_finite false 8388608 (-22)) by (vm_compute; reflexivity).
  assert (H10 : F32.of_Z 10 = S754_finite false 10485760 (-20)) by (vm_compute; reflexivity).
  rewrite H2, H10. apply div_finite_not_nan, div_finite_not_nan.
  now apply add_finite_not_nan.
Qed.

Lemma vectorize_covers grid t i j x :
  cell grid i j = Some x -> F32.isnan x = false ->
  exists ft cells,
    ft ∈ vectorize grid t /\
    geometry ft = Some (PixelRegion cells t) /\
    (i, j) ∈ cells.
Proof.
  intros Hx Hnan.
  assert (Hin : (i, j, x) ∈ valid_cells grid (not_isnan grid)).
  { apply valid_cells_spec. split; [|exact Hx]. apply mask_at_not_isnan. eauto. }
  apply regions_of_covers in Hin as (r & Hr & Hc).
  exists {| change := F64.of_f32 (r_value r);
            geometry := Some (PixelRegion (r_cells r) t) |}, (r_cells r).
  split; [|split; [reflexivity | exact Hc]].
  unfold vectorize, shapes. rewrite <- list_fmap_compose.
  apply list_elem_of_fmap. exists r. split; [reflexivity | exact Hr].
Qed.

(** X4. No valid data is dropped: a cell whose minimum and maximum values
    are finite and are not the nodata value has a derived value that is not
    NaN, a true validity mask, and lies in a polygon of the period's
    features. *)
Theorem finite_cells_are_vectorized fs a b rmin rmax i j x y :
  fs !! a = Some (RasterFile rmin) ->
  fs !! b = Some (RasterFile rmax) ->
  same_grid (band1 rmin) (band1 rmax) ->
  cell (band1 rmin) i j = Some x ->
  cell (band1 rmax) i j = Some y ->
  finite32 x = true -> finite32 y = true ->
  (forall nd, nodata rmin = Some nd ->
              F32.eqb x nd = false /\ F32.eqb y nd = false) ->
  exists avg,
    load_avg_temp fs a b = Some (avg, transform rmin, crs rmin) /\
    cell avg i j = Some (mean_tenths x y) /\
    F32.isnan (mean_tenths x y) = false /\
    mask_at (not_isnan avg) i j = true /\
    exists ft cells,
      ft ∈ vectorize avg (transform rmin) /\
      geometry ft = Some (PixelRegion cells (transform rmin)) /\
      (i, j) ∈ cells.
Proof.
  intros Ha Hb Hgrid Hx Hy Hfx Hfy Hnd.
  exists (derived_grid (nodata rmin) (band1 rmin) (band1 rmax)).
  assert (Hcell : cell (derived_grid (nodata rmin) (band1 rmin) (band1 rmax)) i j
                  = Some (mean_tenths x y)).
  { rewrite (cell_derived_grid _ _ _ i j x y Hx Hy). unfold apply_nodata.
    destruct (nodata rmin) as [nd|]; [|reflexivity].
    now destruct (Hnd nd eq_refl) as [-> ->]. }
  pose proof (mean_tenths_not_nan x y Hfx Hfy) as Hnan.
  split; [now apply load_avg_temp_readable|].
  split; [exact Hcell|]. split; [exact Hnan|]. split.
  - apply mask_at_not_isnan. eauto.
  - now apply (vectorize_covers _ _ i j (mean_tenths x y)).
Qed.

(** ** What a run does to the file system *)

Lemma for_each_effect cfg baseline_arr ps : forall (fs : FS) x,
  (for_each (process_period cfg baseline_arr) ps fs).1 !! x = fs !! x \/
  (x ∈ map (out_path_of cfg) ps /\
   exists g, (for_each (process_period cfg baseline_arr) ps fs).1 !! x
             = Some (GeoJSONFile g)).
Proof.
  induction ps as [|p ps IH]; intros fs x; [now left|].
  simpl. unfold io_bind, process_period at 1 3, io_bind, io_lift, to_file.
  destruct (period_frame cfg baseline_arr p fs) as [gdf|e]; simpl; [|now left].
  destruct (IH (<[out_path_of cfg p := GeoJSONFile gdf]> fs) x) as [Hsame|[Hin Hg]].
  - rewrite Hsame. destruct (decide (out_path_of cfg p = x)) as [<-|Hne].
    + right. split; [left|]. rewrite lookup_insert_eq. eauto.
    + left. now apply lookup_insert_ne.
  - right. split; [now right | exact Hg].
Qed.

(** X5. Whatever happens, a run leaves every file as it was or, at an
    output path, holding a feature collection: no file is deleted, no file
    besides [OUTPUT_DIR/avg_temp_change_<label>.json] is created or
    altered, and what is written is never a raster.  (The directories that
    [os.makedirs] creates are not files.) *)
Theorem main_only_writes_collections cfg (fs : FS) x :
  (main cfg fs).1 !! x = fs !! x \/
  (x ∈ output_paths cfg /\
   exists g, (main cfg fs).1 !! x = Some (GeoJSONFile g)).
Proof.
  destruct (makedirs_outcome (OUTPUT_DIR cfg) fs) as [Hm|Hm].
  - rewrite (main_after_makedirs cfg fs Hm).
    unfold process_periods, output_paths. apply for_each_effect.
  - rewrite (main_makedirs_raises cfg fs _ Hm). now left.
Qed.

Lemma period_frame_raises cfg baseline_arr p fs e :
  period_frame cfg baseline_arr p fs = Raises e <->
  e = ValueError /\
  exists b avg t c,
    baseline_arr = Some b /\
    load_avg_temp fs (tmin_path_of cfg p) (tmax_path_of cfg p) = Some (avg, t, c) /\
    shapes_broadcast avg b = false.
Proof.
  split.
  - intros H. unfold period_frame in H.
    destruct (_ && _); [|discriminate H].
    destruct (load_avg_temp _ _ _) as [[[avg t] c]|] eqn:Hload; [|discriminate H].
    destruct baseline_arr as [b|]; simpl in H; [|discriminate H].
    destruct (ufunc2_outcome F32.sub avg b) as [[_ [g Hg]]|[Hno Hraise]];
      unfold Numpy.subtract in H.
    + rewrite Hg in H. discriminate H.
    + rewrite Hraise in H. injection H as <-. split; [reflexivity|].
      exists b, avg, t, c. auto.
  - intros (-> & b & avg & t & c & -> & Hload & Hno).
    rewrite (period_frame_loaded _ _ _ _ _ _ _ Hload). simpl.
    destruct (ufunc2_outcome F32.sub avg b) as [[Hyes _]|[_ Hraise]]; [congruence|].
    unfold Numpy.subtract. now rewrite Hraise.
Qed.

Lemma for_each_cons_returns cfg baseline_arr p ps (fs : FS) gdf :
  period_frame cfg baseline_arr p fs = Returns gdf ->
  for_each (process_period cfg baseline_arr) (p :: ps) fs
  = for_each (process_period cfg baseline_arr) ps
      (<[out_path_of cfg p := GeoJSONFile gdf]> fs).
Proof.
  intros H. simpl. unfold io_bind. now rewrite (process_period_frame _ _ _ _ _ H).
Qed.

Lemma for_each_cons_raises cfg baseline_arr p ps (fs : FS) e :
  period_frame cfg baseline_arr p fs = Raises e ->
  for_each (process_period cfg baseline_arr) (p :: ps) fs = (fs, Raises e).
Proof.
  intros H. simpl. unfold io_bind, process_period, io_bind, io_lift.
  now rewrite H.
Qed.

Lemma for_each_prefix_raises cfg baseline_arr pre p post e : forall fs : FS,
  (for_each (process_period cfg baseline_arr) pre fs).2 = Returns tt ->
  period_frame cfg baseline_arr p
    (for_each (process_period cfg baseline_arr) pre fs).1 = Raises e ->
  for_each (process_period cfg baseline_arr) (pre ++ p :: post) fs
  = ((for_each (process_period cfg baseline_arr) pre fs).1, Raises e).
Proof.
  induction pre as [|q pre IH]; intros fs Hpre Hp.
  - simpl in *. now apply for_each_cons_raises.
  - destruct (period_frame cfg baseline_arr q fs) as [gdf|e'] eqn:Hq.
    + rewrite (for_each_cons_returns _ _ _ _ _ _ Hq) in Hpre, Hp.
      change ((q :: pre) ++ p :: post) with (q :: (pre ++ p :: post)).
      rewrite !(for_each_cons_returns _ _ _ _ _ _ Hq). now apply IH.
    + rewrite (for_each_cons_raises _ _ _ _ _ _ Hq) in Hpre. discriminate Hpre.
Qed.

(** X6. A baseline that does not fit aborts the run: when the output
    directory is there (the labels holding no "/"), a baseline grid was
    loaded, and a period - the periods before it having been written -
    loads a grid whose shape does not broadcast with the baseline's, the
    run raises the ValueError of the subtraction on line 135; the outputs
    of the earlier periods stay written and nothing is written for that
    period or any later one. *)
Theorem main_aborts_on_baseline_mismatch cfg (fs : FS) b pre p post avg t c :
  (makedirs (OUTPUT_DIR cfg) fs).2 = Returns tt ->
  plain_labels cfg ->
  load_baseline cfg fs = Some b ->
  PERIODS cfg = pre ++ p :: post ->
  (for_each (process_period cfg (Some b)) pre fs).2 = Returns tt ->
  load_avg_temp (for_each (process_period cfg (Some b)) pre fs).1
    (tmin_path_of cfg p) (tmax_path_of cfg p) = Some (avg, t, c) ->
  shapes_broadcast avg b = false ->
  main cfg fs
  = ((for_each (process_period cfg (Some b)) pre fs).1, Raises ValueError).
Proof.
  intros Hdir _ Hb Heq Hpre Hload Hno.
  rewrite (main_after_makedirs cfg fs Hdir). unfold process_periods.
  rewrite Hb, Heq. apply for_each_prefix_raises; [exact Hpre|].
  apply period_frame_raises. split; [reflexivity|].
  exists b, avg, t, c. auto.
Qed.

(** X7. When every period has an output path of its own and no output path
    is an input path, a run that completes leaves in each period's output
    file the frame built from that period's two input files, as they were
    at the start, and the baseline: periods do not influence each other. *)
Theorem main_writes_period_frames cfg (fs : FS) :
  paths_separate cfg ->
  (main cfg fs).2 = Returns tt ->
  forall p, p ∈ PERIODS cfg ->
    exists gdf,
      period_frame cfg (load_baseline cfg fs) p fs = Returns gdf /\
      (main cfg fs).1 !! out_path_of cfg p = Some (GeoJSONFile gdf).
Proof.
  intros Hsep Hret p Hp.
  apply paths_separate_spec in Hsep as [Hnd Hsep].
  pose proof (main_returns cfg fs Hret) as Hmain. rewrite Hmain in *. clear Hmain. unfold process_periods in *.
  now apply (for_each_writes cfg (load_baseline cfg fs) (PERIODS cfg) fs Hnd Hsep Hret).
Qed.

(** ** The pre-check and the fallback *)

Lemma path_join_empty b : path_join "" b = b.
Proof. unfold path_join. now destruct (String.prefix "/" b). Qed.

Lemma load_avg_temp_no_raster fs a b :
  no_raster_at fs a \/ no_raster_at fs b -> load_avg_temp fs a b = None.
Proof.
  unfold no_raster_at, load_avg_temp, load_avg_temp_try, rasterio_open.
  intros H.
  destruct (fs !! a) as [[ra|ea|ga]|]; simpl; try (destruct ea); try reflexivity.
  destruct (fs !! b) as [[rb|eb|gb]|]; simpl; try (destruct eb); try reflexivity.
  destruct H as [H|H]; [now destruct (H ra) | now destruct (H rb)].
Qed.

Lemma no_raster_at_insert (fs : FS) o g x :
  no_raster_at fs x -> no_raster_at (<[o := GeoJSONFile g]> fs) x.
Proof.
  unfold no_raster_at. intros H r. rewrite lookup_insert.
  case_decide; [discriminate | apply H].
Qed.

Lemma for_each_all_sample cfg ps : forall fs : FS,
  (forall q, q ∈ ps ->
     no_raster_at fs (tmin_path_of cfg q) \/ no_raster_at fs (tmax_path_of cfg q)) ->
  (for_each (process_period cfg None) ps fs).2 = Returns tt /\
  forall x,
    fs !! x = Some (GeoJSONFile (sample_frame "")) \/ x ∈ map (out_path_of cfg) ps ->
    (for_each (process_period cfg None) ps fs).1 !! x
    = Some (GeoJSONFile (sample_frame "")).
Proof.
  induction ps as [|p ps IH]; intros fs Hinv.
  - simpl. split; [reflexivity|]. intros x [Hx|Hx]; [exact Hx | inversion Hx].
  - assert (Hp : period_frame cfg None p fs = Returns (sample_frame "")).
    { change (sample_frame "") with (sample_frame (p.1.1)).
      apply period_frame_load_failed, load_avg_temp_no_raster, Hinv. left. }
    rewrite (for_each_cons_returns _ _ _ _ _ _ Hp).
    destruct (IH (<[out_path_of cfg p := GeoJSONFile (sample_frame "")]> fs))
      as [Hret Hfiles].
    + intros q Hq. destruct (Hinv q) as [H|H]; [now right| |];
        [left | right]; now apply no_raster_at_insert.
    + split; [exact Hret|]. intros x Hx. apply Hfiles.
      destruct (decide (out_path_of cfg p = x)) as [<-|Hne].
      * left. apply lookup_insert_eq.
      * destruct Hx as [Hx|Hx].
        -- left. now rewrite lookup_insert_ne.
        -- apply elem_of_cons in Hx as [->|Hx]; [congruence | now right].
Qed.

(** X9. The warning of lines 111-113 is kept when [DATA_DIR] is empty: if
    the output directory exists or can be made (the labels holding no "/")
    and the pre-check finds no period with both of its files, the run
    completes - also with a baseline period configured - and the output
    file of every period holds the sample collection. *)
Theorem no_tiff_files_all_sample cfg (fs : FS) :
  DATA_DIR cfg = "" ->
  (makedirs (OUTPUT_DIR cfg) fs).2 = Returns tt ->
  plain_labels cfg ->
  tiff_files_exist cfg fs = false ->
  (main cfg fs).2 = Returns tt /\
  forall p, p ∈ PERIODS cfg ->
    (main cfg fs).1 !! out_path_of cfg p
    = Some (GeoJSONFile (sample_frame (p.1.1))).
Proof.
  intros Hdir Hmk _ Hnone.
  rewrite (main_after_makedirs cfg fs Hmk). unfold process_periods.
  assert (Hbase : load_baseline cfg fs = None).
  { unfold load_baseline. rewrite Hnone. now destruct (BASELINE_PERIOD cfg). }
  rewrite Hbase.
  destruct (for_each_all_sample cfg (PERIODS cfg) fs) as [Hret Hfiles].
  - intros q Hq. unfold tiff_files_exist in Hnone.
    assert (Hq' : path_exists fs (q.1.2) && path_exists fs (q.2) = false).
    { destruct (path_exists fs (q.1.2) && path_exists fs (q.2)) eqn:E; [|reflexivity].
      rewrite <- Hnone. symmetry. apply existsb_exists. exists q.
      split; [now apply list_elem_of_In | exact E]. }
    unfold tmin_path_of, tmax_path_of. rewrite Hdir, !path_join_empty.
    unfold path_exists, no_raster_at in *.
    destruct (fs !! q.1.2); [|left; intros r; discriminate].
    destruct (fs !! q.2); [discriminate Hq'|right; intros r; discriminate].
  - split; [exact Hret|]. intros p Hp. apply Hfiles. right.
    apply list_elem_of_fmap. eauto.
Qed.

(** ** Output paths *)

Lemma string_length_app (s1 s2 : string) :
  String.length (s1 +:+ s2) = (String.length s1 + String.length s2)%nat.
Proof. induction s1 as [|c s1 IH]; simpl; [reflexivity | now rewrite IH]. Qed.

Lemma string_app_inj_r (s : string) : forall s1 s2 : string,
  s1 +:+ s = s2 +:+ s -> s1 = s2.
Proof.
  induction s1 as [|c1 s1 IH]; intros [|c2 s2] H.
  - reflexivity.
  - apply (f_equal String.length) in H.
    rewrite !string_length_app in H. simpl in H. lia.
  - apply (f_equal String.length) in H.
    rewrite !string_length_app in H. simpl in H. lia.
  - change (String c1 (s1 +:+ s) = String c2 (s2 +:+ s)) in H.
    injection H as -> H. f_equal. now apply IH.
Qed.

Lemma out_path_of_label cfg (p q : period) :
  out_path_of cfg p = out_path_of cfg q -> p.1.1 = q.1.1.
Proof.
  unfold out_path_of, path_join. simpl String.prefix.
  assert (Hinj : forall l1 l2 : string,
            "avg_temp_change_" +:+ l1 +:+ ".json"
            = "avg_temp_change_" +:+ l2 +:+ ".json" -> l1 = l2).
  { intros l1 l2 H. apply String.app_inj in H. now apply string_app_inj_r in H. }
  destruct (bool_decide (OUTPUT_DIR cfg = "") || ends_with_sep (OUTPUT_DIR cfg));
    intros H; apply String.app_inj in H.
  - now apply Hinj.
  - apply (String.app_inj "/") in H. now apply Hinj.
Qed.

(** X10. Two periods are written to the same output file exactly when
    they have the same label: distinct labels never overwrite each other,
    equal labels always do. *)
Theorem out_path_of_eq_iff cfg (p q : period) :
  out_path_of cfg p = out_path_of cfg q <-> p.1.1 = q.1.1.
Proof.
  split; [apply out_path_of_label|]. unfold out_path_of. now intros ->.
Qed.

(** ** Features *)

(** X11. The real-data path yields no feature exactly when every cell of
    the grid is NaN. *)
Theorem vectorize_nil_iff grid t :
  vectorize grid t = [] <->
  forall i j x, cell grid i j = Some x -> F32.isnan x = true.
Proof.
  split.
  - intros Hnil i j x Hx. destruct (F32.isnan x) eqn:E; [reflexivity|].
    now destruct (vectorize_nonempty grid t i j x Hx E).
  - intros Hnan. unfold vectorize. rewrite shapes_nil; [reflexivity|].
    intros i j. destruct (mask_at (not_isnan grid) i j) eqn:E; [|reflexivity].
    apply mask_at_not_isnan in E as (x & Hx & Hx').
    rewrite (Hnan i j x Hx) in Hx'. discriminate Hx'.
Qed.

(** ** Change against a baseline *)

Lemma sub_self x :
  (finite32 x = true -> exists s, F32.sub x x = S754_zero s) /\
  (finite32 x = false -> F32.sub x x = F32.nan).
Proof.
  destruct x as [s|s| |s m e]; simpl; split; try discriminate; intros _.
  - exists false. now destruct s.
  - now destruct s.
  - reflexivity.
  - exists false. unfold F32.sub, SFsub. now rewrite Z.sub_diag.
Qed.

(** X13. A grid compared with itself shows no change: where the derived
    value is finite the difference is zero, elsewhere (infinite or NaN) it
    is NaN and the cell is left out. *)
Theorem change_against_itself (avg : ndarray) :
  rectangular avg ->
  exists grid,
    compute_change avg (Some avg) = Returns grid /\
    forall i j x, cell avg i j = Some x ->
      (finite32 x = true -> exists s, cell grid i j = Some (S754_zero s)) /\
      (finite32 x = false ->
       cell grid i j = Some F32.nan /\ mask_at (not_isnan grid) i j = false).
Proof.
  intros Hrect. exists (zip_with (zip_with F32.sub) avg avg). split.
  - apply ufunc2_same_grid. now repeat split.
  - intros i j x Hx.
    pose proof (cell_zip_with F32.sub avg avg i j x x Hx Hx) as Hcell.
    destruct (sub_self x) as [Hfin Hinf]. split.
    + intros H. destruct (Hfin H) as [s Hs]. exists s. now rewrite Hcell, Hs.
    + intros H. rewrite (Hinf H) in Hcell. split; [exact Hcell|].
      unfold mask_at, not_isnan. now rewrite cell_map2d, Hcell.
Qed.

(** X14. With a baseline loaded, output paths separate from the inputs and
    a run that completes, the output file of a period whose grid lies on the
    baseline's grid holds the features of the cell-wise difference
    derived - baseline, under the transform and reference of the period's
    minimum raster. *)
Theorem main_writes_changes cfg (fs : FS) b p avg t c :
  paths_separate cfg ->
  (main cfg fs).2 = Returns tt ->
  load_baseline cfg fs = Some b ->
  p ∈ PERIODS cfg ->
  load_avg_temp fs (tmin_path_of cfg p) (tmax_path_of cfg p) = Some (avg, t, c) ->
  same_grid avg b ->
  (main cfg fs).1 !! out_path_of cfg p
  = Some (GeoJSONFile
            (from_features (vectorize (zip_with (zip_with F32.sub) avg b) t) c)).
Proof.
  intros Hsep Hret Hb Hp Hload Hgrid.
  apply paths_separate_spec in Hsep as [Hnd Hsep].
  pose proof (main_returns cfg fs Hret) as Hmain. rewrite Hmain in *. clear Hmain.
  unfold process_periods in *. rewrite Hb in *.
  destruct (for_each_writes cfg (Some b) (PERIODS cfg) fs Hnd Hsep Hret p Hp)
    as (gdf & Hgdf & Hfile).
  rewrite Hfile. rewrite (period_frame_loaded _ _ _ _ _ _ _ Hload) in Hgdf.
  simpl in Hgdf. unfold Numpy.subtract in Hgdf.
  rewrite (ufunc2_same_grid F32.sub avg b Hgrid) in Hgdf. simpl in Hgdf.
  now injection Hgdf as <-.
Qed.

(** ** Separate paths *)

Lemma last_char_app (s1 s2 : string) :
  s2 <> "" -> last_char (s1 +:+ s2) = last_char s2.
Proof.
  intros Hne. induction s1 as [|c s1 IH]; [reflexivity|].
  change (String c s1 +:+ s2) with (String c (s1 +:+ s2)).
  simpl. rewrite IH. destruct (s1 +:+ s2) eqn:E; [|reflexivity].
  destruct s1; [now destruct Hne | discriminate E].
Qed.

Lemma last_char_out_path cfg p : last_char (out_path_of cfg p) = Some "n"%char.
Proof.
  unfold out_path_of, path_join. simpl String.prefix.
  set (name := "avg_temp_change_" +:+ p.1.1 +:+ ".json").
  assert (H : last_char name = Some "n"%char).
  { unfold name.
    rewrite (last_char_app "avg_temp_change_" (p.1.1 +:+ ".json"));
      [|destruct (p.1.1); discriminate].
    now rewrite (last_char_app (p.1.1) ".json"). }
  assert (Hne : name <> "") by discriminate.
  destruct (bool_decide (OUTPUT_DIR cfg = "") || ends_with_sep (OUTPUT_DIR cfg)).
  - now rewrite (last_char_app (OUTPUT_DIR cfg) name).
  - rewrite (last_char_app (OUTPUT_DIR cfg) ("/" +:+ name)); [|discriminate].
    now rewrite (last_char_app "/" name).
Qed.

Lemma last_char_tif_path dir f :
  has_suffix ".tif" f -> last_char (path_join dir f) = Some "f"%char.
Proof.
  intros [pre ->]. set (f := pre +:+ ".tif").
  assert (H : last_char f = Some "f"%char)
    by (unfold f; now rewrite (last_char_app pre ".tif")).
  assert (Hne : f <> "") by (unfold f; destruct pre; discriminate).
  unfold path_join. destruct (String.prefix "/" f); [exact H|].
  destruct (bool_decide (dir = "") || ends_with_sep dir).
  - now rewrite (last_char_app dir f).
  - rewrite (last_char_app dir ("/" +:+ f)); [|discriminate].
    now rewrite (last_char_app "/" f).
Qed.

Lemma out_paths_NoDup cfg (ps : list period) :
  NoDup (map (fun p : period => p.1.1) ps) -> NoDup (map (out_path_of cfg) ps).
Proof.
  induction ps as [|p ps IH]; simpl; [constructor|].
  rewrite !NoDup_cons. intros [Hfresh Hnd]. split; [|now apply IH].
  intros Hin. apply Hfresh.
  apply list_elem_of_fmap in Hin as (q & Heq & Hq).
  apply out_path_of_label in Heq. rewrite Heq.
  apply list_elem_of_fmap. eauto.
Qed.

(** X16. A configuration shaped like the script's - distinct labels, input
    file names ending in ".tif" - has separate paths: every period has an
    output file of its own, and no output file is an input of the run. *)
Theorem tif_inputs_paths_separate cfg :
  NoDup (map (fun p : period => p.1.1) (PERIODS cfg)) ->
  (forall p, p ∈ PERIODS cfg ->
     has_suffix ".tif" (p.1.2) /\ has_suffix ".tif" (p.2)) ->
  paths_separate cfg.
Proof.
  intros Hlabels Htif. split.
  - now apply out_paths_NoDup.
  - apply Forall_forall. intros o Ho Hin.
    apply list_elem_of_fmap in Ho as (p & -> & _).
    unfold input_paths in Hin.
    apply list_elem_of_In, in_flat_map in Hin as (q & Hq & Hin).
    apply list_elem_of_In in Hq. destruct (Htif q Hq) as [H1 H2].
    pose proof (last_char_out_path cfg p) as Hn.
    simpl in Hin. destruct Hin as [Hin|[Hin|[]]]; rewrite <- Hin in Hn.
    + unfold tmin_path_of in Hn. rewrite (last_char_tif_path _ _ H1) in Hn.
      discriminate Hn.
    + unfold tmax_path_of in Hn. rewrite (last_char_tif_path _ _ H2) in Hn.
      discriminate Hn.
Qed.

(** ** Order of the periods *)

Lemma tiff_files_exist_perm cfg ps (fs : FS) :
  ps ≡ₚ PERIODS cfg ->
  tiff_files_exist (with_periods cfg ps) fs = tiff_files_exist cfg fs.
Proof.
  intros Hperm. unfold tiff_files_exist. simpl.
  apply eq_true_iff_eq. rewrite !existsb_exists.
  split; intros (p & Hp & H); exists p; (split; [|exact H]);
    apply list_elem_of_In; apply list_elem_of_In in Hp.
  - now rewrite <- Hperm.
  - now rewrite Hperm.
Qed.

Lemma paths_separate_perm cfg ps :
  ps ≡ₚ PERIODS cfg -> paths_separate cfg -> paths_separate (with_periods cfg ps).
Proof.
  intros Hperm [Hnd Hsep]. unfold paths_separate, output_paths, input_paths in *.
  simpl.
  change (map (out_path_of (with_periods cfg ps)) ps)
    with (out_path_of cfg <$> ps).
  change (map (out_path_of cfg) (PERIODS cfg))
    with (out_path_of cfg <$> PERIODS cfg) in *.
  split.
  - now rewrite Hperm.
  - rewrite Forall_forall in *. intros o Ho Hin. rewrite Hperm in Ho.
    apply (Hsep o Ho).
    apply list_elem_of_In, in_flat_map in Hin as (q & Hq & Hin).
    apply list_elem_of_In, in_flat_map. exists q. split; [|exact Hin].
    apply list_elem_of_In. rewrite <- Hperm. now apply list_elem_of_In.
Qed.

Lemma for_each_completes cfg baseline_arr ps : forall fs : FS,
  (forall p q, p ∈ ps -> q ∈ ps ->
     out_path_of cfg p <> tmin_path_of cfg q /\
     out_path_of cfg p <> tmax_path_of cfg q) ->
  (forall p, p ∈ ps -> exists g, period_frame cfg baseline_arr p fs = Returns g) ->
  (for_each (process_period cfg baseline_arr) ps fs).2 = Returns tt.
Proof.
  induction ps as [|p ps IH]; intros fs Hsep Hall; [reflexivity|].
  destruct (Hall p) as [g Hg]; [left|].
  rewrite (for_each_cons_returns _ _ _ _ _ _ Hg). apply IH.
  - intros p' q' Hp' Hq'. apply Hsep; now right.
  - intros q Hq. destruct (Hall q) as [gq Hgq]; [now right|].
    exists gq. rewrite <- Hgq.
    destruct (Hsep p q) as [H1 H2]; [left | now right |].
    apply period_frame_ext; now apply lookup_insert_ne.
Qed.

(** X15. The order of the periods does not matter: when the paths are
    separate and a run completes, the run over the same periods listed in
    any other order completes as well and leaves the same file system. *)
Theorem main_order_independent cfg ps (fs : FS) :
  paths_separate cfg ->
  ps ≡ₚ PERIODS cfg ->
  (main cfg fs).2 = Returns tt ->
  main (with_periods cfg ps) fs = main cfg fs.
Proof.
  intros Hsep Hperm Hret.
  pose proof (paths_separate_perm cfg ps Hperm Hsep) as Hsep'.
  apply paths_separate_spec in Hsep as [Hnd Hsep].
  apply paths_separate_spec in Hsep' as [Hnd' Hsep'].
  assert (Hbase : load_baseline (with_periods cfg ps) fs = load_baseline cfg fs).
  { unfold load_baseline. simpl. now rewrite (tiff_files_exist_perm cfg ps fs Hperm). }
  assert (Hmain : forall r, main (with_periods cfg ps) fs = r <->
            io_bind (makedirs (OUTPUT_DIR cfg))
                    (fun _ => process_periods (with_periods cfg ps)) fs = r)
    by (intros r; reflexivity).
  apply Hmain. clear Hmain.
  destruct (makedirs_outcome (OUTPUT_DIR cfg) fs) as [Hmk|Hmk];
    [|rewrite (main_makedirs_raises cfg fs _ Hmk) in Hret; discriminate Hret].
  rewrite (main_after_makedirs cfg fs Hmk) in *.
  unfold io_bind. pose proof (makedirs_fs (OUTPUT_DIR cfg) fs) as Hfs.
  destruct (makedirs (OUTPUT_DIR cfg) fs) as [fs0 [[]|e0]];
    simpl in Hmk, Hfs; [subst fs0 | discriminate Hmk].
  unfold process_periods in *. rewrite Hbase in *. simpl PERIODS in *.
  set (b := load_baseline cfg fs) in *.
  assert (Hret' : (for_each (process_period (with_periods cfg ps) b) ps fs).2
                  = Returns tt).
  { apply for_each_completes; [exact Hsep'|]. intros p Hp.
    assert (Hp' : p ∈ PERIODS cfg) by (now rewrite <- Hperm).
    destruct (for_each_writes cfg b (PERIODS cfg) fs Hnd Hsep Hret p Hp')
      as (g & Hg & _).
    exists g. exact Hg. }
  destruct (for_each (process_period (with_periods cfg ps) b) ps fs)
    as [fs1 r1] eqn:E1.
  destruct (for_each (process_period cfg b) (PERIODS cfg) fs) as [fs2 r2] eqn:E2.
  simpl in Hret, Hret'. subst r1 r2. f_equal.
  apply map_eq. intros x.
  replace fs1 with (for_each (process_period (with_periods cfg ps) b) ps fs).1
    by (now rewrite E1).
  replace fs2 with (for_each (process_period cfg b) (PERIODS cfg) fs).1
    by (now rewrite E2).
  assert (Hret1 : (for_each (process_period (with_periods cfg ps) b) ps fs).2
                  = Returns tt) by (now rewrite E1).
  assert (Hret2 : (for_each (process_period cfg b) (PERIODS cfg) fs).2
                  = Returns tt) by (now rewrite E2).
  clear E1 E2.
  destruct (decide (x ∈ map (out_path_of cfg) (PERIODS cfg))) as [Hx|Hx].
  - apply list_elem_of_fmap in Hx as (p & -> & Hp).
    destruct (for_each_writes cfg b (PERIODS cfg) fs Hnd Hsep Hret2 p Hp)
      as (g & Hg & ->).
    assert (Hp' : p ∈ ps) by (now rewrite Hperm).
    destruct (for_each_writes (with_periods cfg ps) b ps fs Hnd' Hsep' Hret1 p Hp')
      as (g' & Hg' & Hfile).
    change (out_path_of (with_periods cfg ps) p) with (out_path_of cfg p) in Hfile.
    rewrite Hfile. change (period_frame (with_periods cfg ps) b p fs)
      with (period_frame cfg b p fs) in Hg'. congruence.
  - rewrite (for_each_frame_rule cfg b (PERIODS cfg) fs x Hx).
    apply (for_each_frame_rule (with_periods cfg ps) b ps fs x).
    change (map (out_path_of (with_periods cfg ps)) ps)
      with (out_path_of cfg <$> ps).
    change (map (out_path_of cfg) (PERIODS cfg))
      with (out_path_of cfg <$> PERIODS cfg) in Hx.
    now rewrite Hperm.
Qed.

(** ** The further properties at concrete inputs *)

(** X2 on the scenario: a maximum raster with other metadata. *)
Lemma load_avg_temp_ignores_tmax_metadata_witness :
  fs_scenario !! tmax_2021 = Some (RasterFile scenario_max) /\
  fs_scenario_other !! tmax_2021 = Some (RasterFile scenario_max_other) /\
  load_avg_temp fs_scenario tmin_2021 tmax_2021
  = load_avg_temp fs_scenario_other tmin_2021 tmax_2021.
Proof.
  assert (H1 : fs_scenario !! tmax_2021 = Some (RasterFile scenario_max))
    by by_computation.
  assert (H2 : fs_scenario_other !! tmax_2021 = Some (RasterFile scenario_max_other))
    by by_computation.
  split; [exact H1|]. split; [exact H2|].
  apply (load_avg_temp_ignores_tmax_metadata fs_scenario fs_scenario_other
           tmin_2021 tmax_2021 scenario_max scenario_max_other).
  - by_computation.
  - exact H1.
  - exact H2.
  - reflexivity.
Defined.

(** X3 for a nodata value of NaN. *)
Lemma load_avg_temp_nodata_absent_witness :
  nodata scenario_min_nan = Some F32.nan /\
  load_avg_temp fs_nan_nodata tmin_2021 tmax_2021
  = load_avg_temp fs_nan_nodata_undeclared tmin_2021 tmax_2021.
Proof.
  split; [reflexivity|].
  apply (load_avg_temp_nodata_absent fs_nan_nodata fs_nan_nodata_undeclared
           tmin_2021 tmax_2021 scenario_min_nan scenario_max F32.nan).
  - by_computation.
  - by_computation.
  - by_computation.
  - by_computation.
  - reflexivity.
  - intros i j x _. now destruct x.
  - intros i j x _. now destruct x.
Defined.

(** X4 at the first cell of the scenario. *)
Lemma finite_cells_are_vectorized_witness :
  cell (band1 scenario_min) 0 0 = Some (F32.of_Z 100) /\
  cell (band1 scenario_max) 0 0 = Some (F32.of_Z 200) /\
  exists avg,
    load_avg_temp fs_scenario tmin_2021 tmax_2021 = Some (avg, north_up, wgs84) /\
    mask_at (not_isnan avg) 0 0 = true /\
    exists ft cells,
      ft ∈ vectorize avg north_up /\
      geometry ft = Some (PixelRegion cells north_up) /\
      (0, 0)%nat ∈ cells.
Proof.
  split; [reflexivity|]. split; [reflexivity|].
  destruct (finite_cells_are_vectorized fs_scenario tmin_2021 tmax_2021
              scenario_min scenario_max 0 0 (F32.of_Z 100) (F32.of_Z 200))
    as (avg & Hload & _ & _ & Hmask & Hft).
  - by_computation.
  - by_computation.
  - unfold same_grid, rectangular. repeat split; repeat constructor.
  - reflexivity.
  - reflexivity.
  - reflexivity.
  - reflexivity.
  - intros nd [= <-]. split; by_computation.
  - exists avg. split; [exact Hload|]. split; [exact Hmask | exact Hft].
Defined.

(** X6 for a baseline of another shape: the first period aborts the run
    and nothing is written. *)
Lemma main_aborts_on_baseline_mismatch_witness :
  (makedirs (OUTPUT_DIR config_mismatch) fs_mismatch).2 = Returns tt /\
  plain_labels config_mismatch /\
  load_baseline config_mismatch fs_mismatch
  = Some (derived_grid None [[F32.of_Z 1; F32.of_Z 2; F32.of_Z 3]]
                            [[F32.of_Z 1; F32.of_Z 2; F32.of_Z 3]]) /\
  main config_mismatch fs_mismatch = (fs_mismatch, Raises ValueError).
Proof.
  assert (H1 : (makedirs (OUTPUT_DIR config_mismatch) fs_mismatch).2 = Returns tt)
    by by_computation.
  assert (H2 : load_baseline config_mismatch fs_mismatch
               = Some (derived_grid None [[F32.of_Z 1; F32.of_Z 2; F32.of_Z 3]]
                                         [[F32.of_Z 1; F32.of_Z 2; F32.of_Z 3]]))
    by by_computation.
  assert (Hl : plain_labels config_mismatch)
    by (unfold plain_labels; simpl; repeat constructor).
  split; [exact H1|]. split; [exact Hl|]. split; [exact H2|].
  apply (main_aborts_on_baseline_mismatch config_mismatch fs_mismatch _
           [] ("p", "tmin.tif", "tmax.tif") [("q", "tmin2.tif", "tmax2.tif")]
           (derived_grid None [[F32.of_Z 1; F32.of_Z 2]] [[F32.of_Z 3; F32.of_Z 4]])
           north_up wgs84 H1 Hl H2).
  - reflexivity.
  - reflexivity.
  - by_computation.
  - by_computation.
Defined.

(** X7 for the first period of the scenario. *)
Lemma main_writes_period_frames_witness :
  paths_separate script_config /\
  (main script_config fs_scenario).2 = Returns tt /\
  exists gdf,
    period_frame script_config (load_baseline script_config fs_scenario)
      period_2021 fs_scenario = Returns gdf /\
    (main script_config fs_scenario).1 !! out_path_of script_config period_2021
    = Some (GeoJSONFile gdf).
Proof.
  assert (H1 : paths_separate script_config)
    by (apply (bool_decide_unpack _); vm_compute; exact I).
  assert (H2 : (main script_config fs_scenario).2 = Returns tt) by by_computation.
  split; [exact H1|]. split; [exact H2|].
  apply (main_writes_period_frames script_config fs_scenario H1 H2 period_2021).
  left.
Defined.

(** X8 on the scenario. *)
Lemma main_idempotent_witness :
  BASELINE_PERIOD script_config = None /\
  (main script_config (main script_config fs_scenario).1).1
  = (main script_config fs_scenario).1.
Proof.
  split; [reflexivity|].
  apply (main_idempotent script_config fs_scenario).
  - reflexivity.
  - apply (bool_decide_unpack _). vm_compute. exact I.
Defined.

(** X9 when only one file of a pair is present, with a baseline period
    configured. *)
Lemma no_tiff_files_all_sample_witness :
  DATA_DIR config_with_baseline = "" /\
  (makedirs (OUTPUT_DIR config_with_baseline) fs_half).2 = Returns tt /\
  plain_labels config_with_baseline /\
  tiff_files_exist config_with_baseline fs_half = false /\
  (main config_with_baseline fs_half).2 = Returns tt /\
  (main config_with_baseline fs_half).1
    !! out_path_of config_with_baseline period_2021
  = Some (GeoJSONFile (sample_frame "2021-2040")).
Proof.
  assert (H : tiff_files_exist config_with_baseline fs_half = false)
    by by_computation.
  assert (Hmk : (makedirs (OUTPUT_DIR config_with_baseline) fs_half).2 = Returns tt)
    by by_computation.
  assert (Hl : plain_labels config_with_baseline)
    by (unfold plain_labels; simpl; repeat constructor).
  split; [reflexivity|]. split; [exact Hmk|]. split; [exact Hl|]. split; [exact H|].
  destruct (no_tiff_files_all_sample config_with_baseline fs_half eq_refl Hmk Hl H)
    as [Hret Hfiles].
  split; [exact Hret|]. apply (Hfiles period_2021). left.
Defined.

(** X13 for the derived grid of the scenario. *)
Lemma change_against_itself_witness :
  rectangular (example_derived 1 2) /\
  exists grid,
    compute_change (example_derived 1 2) (Some (example_derived 1 2)) = Returns grid /\
    (exists s, cell grid 0 0 = Some (S754_zero s)) /\
    cell grid 1 2 = Some F32.nan.
Proof.
  assert (H : rectangular (example_derived 1 2))
    by (unfold rectangular; repeat constructor).
  split; [exact H|].
  destruct (change_against_itself (example_derived 1 2) H) as (grid & Hgrid & Hcells).
  exists grid. split; [exact Hgrid|]. split.
  - now apply (Hcells 0%nat 0%nat (F32.of_Z 15) eq_refl).
  - now apply (Hcells 1%nat 2%nat F32.nan eq_refl).
Defined.

(** X14 for the scenario against a baseline of 15.0 everywhere. *)
Lemma main_writes_changes_witness :
  paths_separate config_with_baseline /\
  (main config_with_baseline fs_baseline).2 = Returns tt /\
  load_baseline config_with_baseline fs_baseline
  = Some (repeat (repeat (F32.of_Z 15) 4) 4) /\
  (main config_with_baseline fs_baseline).1
    !! out_path_of config_with_baseline period_2021
  = Some (GeoJSONFile
            (from_features
               (vectorize (zip_with (zip_with F32.sub) (example_derived 1 2)
                                    (repeat (repeat (F32.of_Z 15) 4) 4))
                          north_up)
               wgs84)).
Proof.
  assert (H1 : paths_separate config_with_baseline)
    by (apply (bool_decide_unpack _); vm_compute; exact I).
  assert (H2 : (main config_with_baseline fs_baseline).2 = Returns tt)
    by by_computation.
  assert (H3 : load_baseline config_with_baseline fs_baseline
               = Some (repeat (repeat (F32.of_Z 15) 4) 4)) by by_computation.
  split; [exact H1|]. split; [exact H2|]. split; [exact H3|].
  apply (main_writes_changes config_with_baseline fs_baseline _ period_2021
           (example_derived 1 2) north_up wgs84 H1 H2 H3).
  - left.
  - by_computation.
  - unfold same_grid, rectangular. repeat split; repeat constructor.
Defined.

(** X15 for the periods of the script in reverse order. *)
Lemma main_order_independent_witness :
  paths_separate script_config /\
  (main script_config fs_scenario).2 = Returns tt /\
  main (with_periods script_config (reverse (PERIODS script_config))) fs_scenario
  = main script_config fs_scenario.
Proof.
  assert (H1 : paths_separate script_config)
    by (apply (bool_decide_unpack _); vm_compute; exact I).
  assert (H2 : (main script_config fs_scenario).2 = Returns tt) by by_computation.
  split; [exact H1|]. split; [exact H2|].
  apply (main_order_independent script_config _ fs_scenario H1); [|exact H2].
  apply reverse_Permutation.
Defined.

(** X16 for the configuration of the script. *)
Lemma tif_inputs_paths_separate_witness :
  NoDup (map (fun p : period => p.1.1) (PERIODS script_config)) /\
  paths_separate script_config.
Proof.
  assert (H : NoDup (map (fun p : period => p.1.1) (PERIODS script_config)))
    by (apply (bool_decide_unpack _); vm_compute; exact I).
  split; [exact H|].
  apply (tif_inputs_paths_separate script_config H).
  intros p Hp. simpl in Hp.
  repeat (apply elem_of_cons in Hp as [->|Hp];
          [split; simpl;
           match goal with
           | |- has_suffix _ ?s =>
               exists (String.substring 0 (String.length s - 4) s);
               vm_compute; reflexivity
           end|]).
  inversion Hp.
Defined.
